(** * Price-Compare-Pro: the best-deal selection and the deal scorer

    A shallow embedding of the best-deal logic of the storefront
    ([AIRecommendation.tsx], [ResultsDisplay.tsx], [types/product.ts]) and of
    the deal scorer the README describes, with the properties the
    specification states about them.

    Numbers.  A JavaScript number that arrives through JSON is a finite
    double; [>] and [===] on finite doubles agree with the order and the
    equality of the rationals they denote, so a number is a [Q] compared with
    [Qcompare] and [Qeq_bool].  A field that is absent at run time is
    [Undefined], a JSON [null] is [Null]. *)

From Stdlib Require Import List String Ascii Arith NArith QArith Qminmax Lqa Lia Bool Permutation.
Import ListNotations.

Local Open Scope Q_scope.

(** [x > y] on finite numbers. *)
Definition Qgtb (x y : Q) : bool :=
  match x ?= y with
  | Gt => true
  | _ => false
  end.

(** ** JavaScript values and the operators the components use *)

Module JS.

Inductive value : Type :=
| Num (q : Q)
| Null
| Undefined.

(** [v ?? d]: the default replaces [null] and [undefined] only. *)
Definition nullish (v : value) (d : Q) : Q :=
  match v with
  | Num q => q
  | Null | Undefined => d
  end.

(** ToNumber: [null] is [+0], [undefined] is [NaN] (here [None]). *)
Definition to_number (v : value) : option Q :=
  match v with
  | Num q => Some q
  | Null => Some 0
  | Undefined => None
  end.

(** [a > b]: false as soon as one side is [NaN]. *)
Definition gt (a b : value) : bool :=
  match to_number a, to_number b with
  | Some x, Some y => Qgtb x y
  | _, _ => false
  end.

(** [a === b] *)
Definition strict_eq (a b : value) : bool :=
  match a, b with
  | Num x, Num y => Qeq_bool x y
  | Null, Null => true
  | Undefined, Undefined => true
  | _, _ => false
  end.

Definition is_num (v : value) : Prop :=
  match v with
  | Num _ => True
  | _ => False
  end.

End JS.

(** ** [types/product.ts] *)

Record Product : Type := mkProduct {
  product_name : string;
  price : Q;
  rating : Q;
  product_url : string;
  image_url : string;
  retailer : string;
  final_score : JS.value;
  recommendation : string;
  discount : option string
}.

(** ** [AIRecommendation.tsx] *)

Module AIRecommendation.

(** The callback of [products.reduce]. *)
Definition pick (best current : Product) : Product :=
  if JS.gt (final_score current) (final_score best) then current else best.

(** [if (products.length === 0) return null;] and then
    [products.reduce(pick, products[0])]. *)
Definition bestDeal (products : list Product) : option Product :=
  match products with
  | [] => None
  | p0 :: _ => Some (fold_left pick products p0)
  end.

(** [Math.min(...prices)] with [prices = products.map(p => p.price)], on
    the non-empty list [p0 :: rest]. *)
Definition lowestPrice (p0 : Product) (rest : list Product) : Q :=
  fold_left Qmin (map price rest) (price p0).

(** [bestDeal.price - lowestPrice]; [None] where the component has returned
    [null] before.  The difference of two doubles is zero exactly when they
    are equal and never negative when the first is not the smaller one, so
    the exact difference decides the tests on it the same way. *)
Definition priceDifference (products : list Product) : option Q :=
  match products with
  | [] => None
  | p0 :: rest =>
      match bestDeal products with
      | Some best => Some (price best - lowestPrice p0 rest)
      | None => None
      end
  end.

(** [{priceDifference === 0 && (...Lowest Price Guaranteed!...)}] *)
Definition lowestPriceBanner (products : list Product) : bool :=
  match priceDifference products with
  | Some d => Qeq_bool d 0
  | None => false
  end.

End AIRecommendation.

(** ** [ResultsDisplay.tsx] *)

Module ResultsDisplay.

(** The [products] prop: platform name to product array, in key order.  An
    entry of the object or of an array may be [null] at run time, which is
    what [filter(Boolean)] and [products[key]?.length] guard against. *)
Definition platforms : Type := list (string * option (list (option Product))).

(** [Object.values(products).flat()]: arrays are spliced in, anything else
    stays as one element. *)
Definition flat (vs : list (option (list (option Product)))) : list (option Product) :=
  flat_map (fun v => match v with
                     | Some arr => arr
                     | None => [None]
                     end) vs.

(** [.filter(Boolean)] *)
Fixpoint filter_Boolean (xs : list (option Product)) : list Product :=
  match xs with
  | [] => []
  | Some p :: r => p :: filter_Boolean r
  | None :: r => filter_Boolean r
  end.

Definition allProducts (products : platforms) : list Product :=
  filter_Boolean (flat (map snd products)).

Definition initialCount : nat := 4.

Definition displayedProducts (expanded : bool) (all : list Product) : list Product :=
  if expanded then all else firstn initialCount all.

(** The loop state [(bestDeal, maxScore)] and the body of the [forEach]. *)
Definition visit (st : Product * Q) (p : Product) : Product * Q :=
  let currentScore := JS.nullish (final_score p) 0 in
  if Qgtb currentScore (snd st) then (p, currentScore) else st.

(** [None] is the "No Results Yet" return taken when [totalProducts === 0];
    otherwise the pair [(bestDeal, maxScore)] after the loop. *)
Definition bestDeal (all : list Product) : option (Product * Q) :=
  match all with
  | [] => None
  | p0 :: _ => Some (fold_left visit all (p0, JS.nullish (final_score p0) 0))
  end.

(** [highlighted={product.final_score === maxScore}] *)
Definition highlighted (maxScore : Q) (product : Product) : bool :=
  JS.strict_eq (final_score product) (JS.Num maxScore).

(** The cards of the grid that carry the best-deal marker. *)
Definition highlightedCards (expanded : bool) (all : list Product) : list Product :=
  match bestDeal all with
  | None => []
  | Some (_, maxScore) => filter (highlighted maxScore) (displayedProducts expanded all)
  end.

(** [products[key]] *)
Fixpoint lookup (key : string) (products : platforms)
  : option (option (list (option Product))) :=
  match products with
  | [] => None
  | (k, v) :: r => if String.eqb key k then Some v else lookup key r
  end.

(** [products[key]?.length > 0] *)
Definition hasProducts (products : platforms) (key : string) : bool :=
  match lookup key products with
  | Some (Some arr) => Nat.ltb 0 (List.length arr)
  | _ => false
  end.

(** [Object.keys(products).filter(key => products[key]?.length > 0)] *)
Definition platformNames (products : platforms) : list string :=
  filter (hasProducts products) (map fst products).

Definition totalProducts (all : list Product) : nat := List.length all.

Definition displayedTotal (expanded : bool) (all : list Product) : nat :=
  List.length (displayedProducts expanded all).

(** [{totalProducts > initialCount && <ViewMoreButton ... />}] *)
Definition showsViewMore (all : list Product) : bool :=
  Nat.ltb initialCount (totalProducts all).

End ResultsDisplay.

(** ** [ViewMoreButton.tsx] *)

Module ViewMoreButton.

Inductive caption : Type :=
| ShowLess
| ViewMore (n : Z).

(** ["Show Less"] when expanded, else
    ["View {totalItems - currentlyShowing} More Products"]. *)
Definition label (expanded : bool) (totalItems currentlyShowing : nat) : caption :=
  if expanded then ShowLess
  else ViewMore (Z.of_nat totalItems - Z.of_nat currentlyShowing).

End ViewMoreButton.

(** ** [Index.tsx], [handleSearch] *)

Module Index.

(** One element of [response.data.platforms]; [products] may be missing. *)
Record PlatformResult : Type := mkPlatformResult {
  platform : string;
  products : option (list (option Product))
}.

(** [obj[k] = v]: an existing key keeps its place and gets the new value, a
    new key goes to the end (the enumeration order of the keys that are not
    array indices, as the names of shops are). *)
Fixpoint assign (k : string) (v : option (list (option Product)))
  (obj : ResultsDisplay.platforms) : ResultsDisplay.platforms :=
  match obj with
  | [] => [(k, v)]
  | (k', v') :: r =>
      if String.eqb k k' then (k, v) :: r else (k', v') :: assign k v r
  end.

(** [platform.products || []] *)
Definition productsOrEmpty (pl : PlatformResult) : list (option Product) :=
  match products pl with
  | Some arr => arr
  | None => []
  end.

Section HandleSearch.

(** [String.prototype.toLowerCase] *)
Variable toLowerCase : string -> string.

Definition store (obj : ResultsDisplay.platforms) (pl : PlatformResult)
  : ResultsDisplay.platforms :=
  assign (toLowerCase (platform pl)) (Some (productsOrEmpty pl)) obj.

(** [const platformProducts = {}; response.data.platforms?.forEach(...)] *)
Definition platformProducts (platforms : option (list PlatformResult))
  : ResultsDisplay.platforms :=
  match platforms with
  | None => []
  | Some pls => fold_left store pls []
  end.

End HandleSearch.

(** [platform.products?.length || 0] *)
Definition productCount (pl : PlatformResult) : nat :=
  match products pl with
  | Some arr => List.length arr
  | None => 0
  end.

(** [response.data.platforms?.reduce((acc, platform) =>
      acc + (platform.products?.length || 0), 0) || 0] *)
Definition totalCount (platforms : option (list PlatformResult)) : nat :=
  match platforms with
  | None => 0
  | Some pls => fold_left (fun acc pl => (acc + productCount pl)%nat) pls 0%nat
  end.

End Index.

(** ** The password helpers that follow the API client in [lib/api.ts]

    A password is its sequence of UTF-16 code units, which is what [length]
    counts and what the character classes of the tests range over. *)

Module Password.

Definition codes (s : string) : list N := map N_of_ascii (list_ascii_of_string s).

Definition between (lo hi c : N) : bool := (N.leb lo c && N.leb c hi)%bool.

(** [/[a-z]/], [/[A-Z]/], [/[0-9]/] and [/[^A-Za-z0-9]/] on one code unit. *)
Definition isLower (c : N) : bool := between 97 122 c.
Definition isUpper (c : N) : bool := between 65 90 c.
Definition isDigit (c : N) : bool := between 48 57 c.
Definition isSpecial (c : N) : bool := negb (isUpper c || isLower c || isDigit c).

Definition b2n (b : bool) : nat := if b then 1%nat else 0%nat.

(** The counter [score] after the six [if (...) score++] lines. *)
Definition rawScore (password : list N) : nat :=
  (b2n (Nat.leb 8 (List.length password)) +
   b2n (Nat.leb 12 (List.length password)) +
   b2n (existsb isLower password) +
   b2n (existsb isUpper password) +
   b2n (existsb isDigit password) +
   b2n (existsb isSpecial password))%nat.

(** [Math.min(Math.floor(score / 1.5), 4)]; on the counter values 0 to 6 the
    quotient by 1.5 is 0, 0.66.., 1.33.., 2, 2.66.., 3.33.., 4, whose floor
    is the integer quotient of [2 * score] by 3. *)
Definition normalizedScore (password : list N) : nat :=
  Nat.min ((2 * rawScore password) / 3) 4.

Definition labels : list string :=
  ["Very Weak"; "Weak"; "Fair"; "Good"; "Strong"]%string.

Definition colors : list string :=
  ["text-red-500"; "text-orange-500"; "text-yellow-500"; "text-blue-500";
   "text-green-500"]%string.

(** The returned object; an array read past its end would give
    [undefined], here [None]. *)
Record Strength : Type := mkStrength {
  score : nat;
  label : option string;
  color : option string
}.

Definition checkPasswordStrength (password : list N) : Strength :=
  match password with
  | [] => mkStrength 0 (Some "None"%string) (Some "text-gray-500"%string)
  | _ :: _ =>
      let n := normalizedScore password in
      mkStrength n (nth_error labels n) (nth_error colors n)
  end.

Record Validation : Type := mkValidation {
  isValid : bool;
  errors : list string
}.

(** [if (failed) errors.push(message)] *)
Definition pushIf (failed : bool) (message : string) (errs : list string) : list string :=
  if failed then errs ++ [message] else errs.

Definition validatePassword (password : list N) : Validation :=
  let e0 := [] in
  let e1 := pushIf (Nat.ltb (List.length password) 8)
                   "Password must be at least 8 characters" e0 in
  let e2 := pushIf (negb (existsb isLower password))
                   "Password must contain a lowercase letter" e1 in
  let e3 := pushIf (negb (existsb isUpper password))
                   "Password must contain an uppercase letter" e2 in
  let e4 := pushIf (negb (existsb isDigit password))
                   "Password must contain a number" e3 in
  let e5 := pushIf (negb (existsb isSpecial password))
                   "Password must contain a special character" e4 in
  mkValidation (Nat.eqb (List.length e5) 0) e5.

Definition uppercase : list N := codes "ABCDEFGHJKLMNPQRSTUVWXYZ".
Definition lowercase : list N := codes "abcdefghijkmnpqrstuvwxyz".
Definition numbers : list N := codes "23456789".
Definition symbols : list N := codes "!@#$%^&*()-_=+".
Definition allChars : list N := uppercase ++ lowercase ++ numbers ++ symbols.

(** [generateSecurePassword]: one character drawn from each alphabet
    ([Math.floor(Math.random() * length)] is an index of the alphabet), ten
    more drawn from [allChars], and the fourteen characters reordered by a
    sort under a random comparison, that is, in some permutation. *)
Inductive generateSecurePassword : list N -> Prop :=
| generated (u l n s : N) (fill password : list N) :
    In u uppercase -> In l lowercase -> In n numbers -> In s symbols ->
    List.length fill = 10%nat -> Forall (fun c => In c allChars) fill ->
    Permutation (u :: l :: n :: s :: fill) password ->
    generateSecurePassword password.

End Password.

(** ** The deal scorer

    The scorer runs in the Python service ([google_shopping_service.py] in
    the README's project tree), which is not part of the sources at hand;
    the README gives its formula and its selection policy only.  Python
    floats are taken as exact rationals here, and a division is partial: a
    zero divisor is the [ZeroDivision] outcome, as the [/] of Python raises. *)

Module DealScorer.

(** Modelled from the spec: the [ProductRecord] of the missing service,
    name, price, rating, retailer and url. *)
Record ProductRecord : Type := mkRecord {
  name : string;
  price : Q;
  rating : Q;
  retailer : string;
  url : string
}.

(** Modelled from the spec: the [ScoredProduct] of the missing service, a
    [ProductRecord] plus [final_score] and [recommendation]. *)
Record ScoredProduct : Type := mkScored {
  record : ProductRecord;
  final_score : Q;
  recommendation : string
}.

(** A computation either returns or stops on a division by zero. *)
Inductive outcome (A : Type) : Type :=
| Ok (a : A)
| ZeroDivision.
Arguments Ok {A} a.
Arguments ZeroDivision {A}.

Definition bind {A B : Type} (m : outcome A) (k : A -> outcome B) : outcome B :=
  match m with
  | Ok a => k a
  | ZeroDivision => ZeroDivision
  end.

Fixpoint mapM {A B : Type} (f : A -> outcome B) (l : list A) : outcome (list B) :=
  match l with
  | [] => Ok []
  | x :: r => bind (f x) (fun y => bind (mapM f r) (fun ys => Ok (y :: ys)))
  end.

(** [a / b], which raises on a zero divisor. *)
Definition divide (a b : Q) : outcome Q :=
  if Qeq_bool b 0 then ZeroDivision else Ok (a / b).

(** The formula as the README prints it, without a guard. *)
Definition readme_price_score (min_price max_price p : Q) : outcome Q :=
  bind (divide (p - min_price) (max_price - min_price)) (fun d => Ok (1 - d)).

(** Modelled from the spec: the scoring function of the Python service
    (step 2 of [scoreAndRank]), whose code is missing:
    [priceScore = maxPrice == minPrice ? 1.0
                  : 1 - (price - minPrice) / (maxPrice - minPrice)]. *)
Definition priceScore (minPrice maxPrice p : Q) : outcome Q :=
  if Qeq_bool maxPrice minPrice then Ok 1
  else bind (divide (p - minPrice) (maxPrice - minPrice)) (fun d => Ok (1 - d)).

(** Modelled from the spec: step 3, [ratingScore = rating / 5.0]. *)
Definition ratingScore (r : Q) : Q := r / 5.

(** Modelled from the spec: step 4,
    [final_score = 0.7 * priceScore + 0.3 * ratingScore]. *)
Definition finalScore (ps rs : Q) : Q := (7 # 10) * ps + (3 # 10) * rs.

(** Modelled from the spec: step 5, the label thresholds of the missing
    service (at least 0.8 "Excellent Deal", at least 0.6 "Good Value",
    else "Fair"). *)
Definition label (s : Q) : string :=
  if Qle_bool (8 # 10) s then "Excellent Deal"%string
  else if Qle_bool (6 # 10) s then "Good Value"%string
  else "Fair"%string.

(** Modelled from the spec: the exclusion of the missing service, "records
    with [price <= 0] are excluded before scoring". *)
Definition validPrice (p : ProductRecord) : bool := Qgtb (price p) 0.

(** Modelled from the spec: step 1 of the missing service, [minPrice] and
    [maxPrice] across the set, for a set with first record [p0]. *)
Definition minPrice (p0 : ProductRecord) (rest : list ProductRecord) : Q :=
  fold_left (fun m p => Qmin m (price p)) rest (price p0).

(** Modelled from the spec: step 1 of the missing service, [maxPrice]. *)
Definition maxPrice (p0 : ProductRecord) (rest : list ProductRecord) : Q :=
  fold_left (fun m p => Qmax m (price p)) rest (price p0).

(** Modelled from the spec: steps 2 to 5 of the missing service for one
    record, given the extremes of the set. *)
Definition scoreOne (mn mx : Q) (p : ProductRecord) : outcome ScoredProduct :=
  bind (priceScore mn mx (price p)) (fun ps =>
    let s := finalScore ps (ratingScore (rating p)) in
    Ok (mkScored p s (label s))).

(** Modelled from the spec: [scoreAndRank] of the missing Python service,
    steps 1 to 5 over the records that pass the price exclusion. *)
Definition scoreAndRank (products : list ProductRecord) : outcome (list ScoredProduct) :=
  match filter validPrice products with
  | [] => Ok []
  | p0 :: rest => mapM (scoreOne (minPrice p0 rest) (maxPrice p0 rest)) (p0 :: rest)
  end.

End DealScorer.

(** ** Vocabulary of the statements *)

(** A scan that replaces its candidate on a strict improvement only: the
    shape of the [reduce] callback and of the [forEach] body. *)
Definition keep_first (A : Type) (gtb : A -> A -> bool) (best current : A) : A :=
  if gtb current best then current else best.

(** [x.final_score > y.final_score] *)
Definition score_gt (x y : Product) : bool :=
  JS.gt (final_score x) (final_score y).

(** The record carries a number in [final_score], as [types/product.ts]
    declares. *)
Definition has_score (p : Product) : Prop := JS.is_num (final_score p).

(** The score the grid works with, [p.final_score ?? 0]. *)
Definition shown_score (p : Product) : Q := JS.nullish (final_score p) 0.

Definition shown_gt (x y : Product) : bool := Qgtb (shown_score x) (shown_score y).

(** The quality threshold of the README, [rating > 3.5]. *)
Definition rating_threshold : Q := 35 # 10.

(** A product as the search response delivers it, the fields that play no
    role in the selection left empty. *)
Definition item (n : string) (pr rt : Q) (fs : JS.value) : Product :=
  mkProduct n pr rt "" "" "" fs "" None.

(** The example of the specification, with the scores the scorer gives. *)
Definition spec_example : list Product :=
  [ item "first" 100 4 (JS.Num (24 # 100));
    item "second" 50 3 (JS.Num (88 # 100));
    item "third" 75 (45 # 10) (JS.Num (62 # 100)) ].

(** Two records tied at the maximum, the dearer one first. *)
Definition tied_pair : list Product :=
  [ item "dear" 100 4 (JS.Num (1 # 2));
    item "cheap" 50 4 (JS.Num (1 # 2)) ].

(** A response in which one record came without a score. *)
Definition unscored_first : list Product :=
  [ item "unscored" 10 4 JS.Undefined;
    item "scored" 20 4 (JS.Num (1 # 10));
    item "null" 30 4 JS.Null ].

Definition spec_records : list DealScorer.ProductRecord :=
  [ DealScorer.mkRecord "first" 100 4 "shop" "";
    DealScorer.mkRecord "second" 50 3 "shop" "";
    DealScorer.mkRecord "third" 75 (45 # 10) "shop" "" ].

Definition same_price_records : list DealScorer.ProductRecord :=
  [ DealScorer.mkRecord "a" 60 4 "shop" "";
    DealScorer.mkRecord "b" 60 2 "shop" "" ].

Definition mixed_records : list DealScorer.ProductRecord :=
  [ DealScorer.mkRecord "free" 0 5 "shop" "";
    DealScorer.mkRecord "a" 40 4 "shop" "";
    DealScorer.mkRecord "refund" (-5) 1 "shop" "";
    DealScorer.mkRecord "b" 80 (45 # 10) "shop" "" ].

(** [m] is the least (greatest) price of the records [l]. *)
Definition is_min_price (m : Q) (l : list DealScorer.ProductRecord) : Prop :=
  Forall (fun p => m <= DealScorer.price p) l /\
  Exists (fun p => DealScorer.price p == m) l.

Definition is_max_price (m : Q) (l : list DealScorer.ProductRecord) : Prop :=
  Forall (fun p => DealScorer.price p <= m) l /\
  Exists (fun p => DealScorer.price p == m) l.

(** [toLowerCase] on the letters A to Z, all that the platform names of the
    examples need. *)
Definition lower_ascii (c : ascii) : ascii :=
  let n := nat_of_ascii c in
  if (Nat.leb 65 n && Nat.leb n 90)%bool then ascii_of_nat (n + 32) else c.

Fixpoint toLowerCaseAscii (s : string) : string :=
  match s with
  | EmptyString => EmptyString
  | String c r => String (lower_ascii c) (toLowerCaseAscii r)
  end.

(** A response in which the same shop comes twice, in two spellings. *)
Definition twice_amazon : list Index.PlatformResult :=
  [ Index.mkPlatformResult "Amazon" (Some [Some (item "first" 100 4 (JS.Num (24 # 100)))]);
    Index.mkPlatformResult "AMAZON" (Some [Some (item "second" 50 3 (JS.Num (88 # 100)))]);
    Index.mkPlatformResult "Flipkart" None ].

Definition two_shops : list Index.PlatformResult :=
  [ Index.mkPlatformResult "Amazon" (Some [Some (item "first" 100 4 (JS.Num (24 # 100)))]);
    Index.mkPlatformResult "Flipkart" (Some [Some (item "second" 50 3 (JS.Num (88 # 100)));
                                             Some (item "third" 75 (45 # 10) (JS.Num (62 # 100)))]) ].

(** A [products] object with a [null] entry, an empty array and a [null]
    array. *)
Definition three_shops : ResultsDisplay.platforms :=
  [ ("amazon"%string, Some [Some (item "first" 100 4 (JS.Num (24 # 100))); None]);
    ("croma"%string, Some []);
    ("flipkart"%string, None) ].

(** The record [p] with its rating replaced by [f p], every other field
    kept. *)
Definition rerate (f : Product -> Q) (p : Product) : Product :=
  mkProduct (product_name p) (price p) (f p) (product_url p) (image_url p)
            (retailer p) (final_score p) (recommendation p) (discount p).

(** * Properties *)

(** ** Comparison of numbers *)

Lemma Qgtb_true (x y : Q) : Qgtb x y = true <-> y < x.
Proof.
  unfold Qgtb. rewrite (Qgt_alt x y).
  destruct (x ?= y); split; congruence.
Qed.

Lemma Qgtb_false (x y : Q) : Qgtb x y = false <-> x <= y.
Proof.
  unfold Qgtb. rewrite (Qle_alt x y).
  destruct (x ?= y); split; congruence.
Qed.

(** ** A left-to-right scan that replaces its candidate on a strict
    improvement only keeps the first maximal element *)

Section FirstMax.

Variable A : Type.
Variable gtb : A -> A -> bool.
Variable good : A -> Prop.

Hypothesis gtb_trans :
  forall x y z, good x -> good y -> good z ->
    gtb x y = true -> gtb y z = true -> gtb x z = true.
Hypothesis gtb_le_trans :
  forall x y z, good x -> good y -> good z ->
    gtb x y = true -> gtb z y = false -> gtb x z = true.

Local Abbreviation keep_first := (keep_first A gtb).

Lemma keep_first_in (l : list A) (b : A) :
  In (fold_left keep_first l b) (b :: l).
Proof.
  revert b. induction l as [|x l IH]; intros b; simpl.
  - now left.
  - destruct (IH (keep_first b x)) as [H|H].
    + rewrite <- H. unfold keep_first. destruct (gtb x b); auto.
    + auto.
Qed.

Lemma keep_first_split (l : list A) (b : A) :
  good b -> Forall good l ->
  exists pre post,
    b :: l = pre ++ fold_left keep_first l b :: post /\
    Forall (fun p => gtb (fold_left keep_first l b) p = true) pre /\
    Forall (fun p => gtb p (fold_left keep_first l b) = false) post.
Proof.
  intros Hb. induction l as [|x l IH] using rev_ind; intros Hl.
  - exists [], []. simpl. auto.
  - apply Forall_app in Hl. destruct Hl as [Hl Hx].
    inversion_clear Hx as [|? ? Hgx _].
    destruct (IH Hl) as (pre & post & E & Hpre & Hpost).
    rewrite fold_left_app. simpl.
    set (r := fold_left keep_first l b) in *.
    assert (Hr : good r).
    { pose proof (keep_first_in l b) as Hin. fold r in Hin.
      destruct Hin as [<-|Hin]; [assumption|].
      rewrite Forall_forall in Hl. now apply Hl. }
    assert (Hgpre : Forall good pre /\ Forall good post).
    { assert (Hall : Forall good (b :: l)) by now constructor.
      rewrite E in Hall. apply Forall_app in Hall. destruct Hall as [H1 H2].
      inversion_clear H2. now split. }
    destruct Hgpre as [Hgpre Hgpost].
    assert (Hk : keep_first r x = if gtb x r then x else r) by reflexivity.
    rewrite Hk. clear Hk. destruct (gtb x r) eqn:G.
    + exists (b :: l), []. split; [now rewrite app_comm_cons|].
      split; [|constructor].
      rewrite E. apply Forall_app. split; [|constructor].
      * rewrite Forall_forall in *. intros p Hp.
        apply (gtb_trans x r p); auto.
      * assumption.
      * rewrite Forall_forall in *. intros p Hp.
        apply (gtb_le_trans x r p); auto.
    + exists pre, (post ++ [x]). split; [|split].
      * rewrite app_comm_cons, E, <- app_assoc. reflexivity.
      * assumption.
      * apply Forall_app. split; [assumption|]. now constructor.
Qed.

End FirstMax.

(** ** The two scans of the components as instances *)

Lemma score_gt_shown (x y : Product) :
  has_score x -> has_score y -> score_gt x y = shown_gt x y.
Proof.
  unfold has_score, score_gt, shown_gt, shown_score.
  destruct (final_score x), (final_score y); simpl; tauto.
Qed.

Lemma shown_gt_trans (x y z : Product) :
  shown_gt x y = true -> shown_gt y z = true -> shown_gt x z = true.
Proof.
  unfold shown_gt. rewrite !Qgtb_true. intros. lra.
Qed.

Lemma shown_gt_le_trans (x y z : Product) :
  shown_gt x y = true -> shown_gt z y = false -> shown_gt x z = true.
Proof.
  unfold shown_gt. rewrite !Qgtb_true, Qgtb_false. intros. lra.
Qed.

Lemma score_gt_trans (x y z : Product) :
  has_score x -> has_score y -> has_score z ->
  score_gt x y = true -> score_gt y z = true -> score_gt x z = true.
Proof.
  intros Hx Hy Hz. rewrite !score_gt_shown by assumption.
  apply shown_gt_trans.
Qed.

Lemma score_gt_le_trans (x y z : Product) :
  has_score x -> has_score y -> has_score z ->
  score_gt x y = true -> score_gt z y = false -> score_gt x z = true.
Proof.
  intros Hx Hy Hz. rewrite !score_gt_shown by assumption.
  apply shown_gt_le_trans.
Qed.

Lemma pick_is_keep_first (best current : Product) :
  AIRecommendation.pick best current = keep_first Product score_gt best current.
Proof. reflexivity. Qed.

(** [reduce] starts from [products[0]] and visits [products[0]] again, which
    changes nothing. *)
Lemma AIRecommendation_bestDeal_cons (p0 : Product) (rest : list Product) :
  AIRecommendation.bestDeal (p0 :: rest) =
  Some (fold_left (keep_first Product score_gt) rest p0).
Proof.
  unfold AIRecommendation.bestDeal. simpl fold_left at 1.
  unfold AIRecommendation.pick at 2. now destruct (JS.gt _ _).
Qed.

(** The loop of the grid keeps [maxScore] equal to the shown score of
    [bestDeal], and its [bestDeal] is the scan by [shown_gt]. *)
Lemma ResultsDisplay_visit_fold (l : list Product) (b : Product) :
  fold_left ResultsDisplay.visit l (b, shown_score b) =
  (fold_left (keep_first Product shown_gt) l b,
   shown_score (fold_left (keep_first Product shown_gt) l b)).
Proof.
  revert b. induction l as [|x l IH]; intros b; simpl; [reflexivity|].
  unfold ResultsDisplay.visit at 2. unfold keep_first at 2 4. simpl snd.
  fold (shown_score x). fold (shown_gt x b).
  destruct (shown_gt x b); apply IH.
Qed.

Lemma ResultsDisplay_bestDeal_cons (p0 : Product) (rest : list Product) :
  ResultsDisplay.bestDeal (p0 :: rest) =
  Some (fold_left (keep_first Product shown_gt) rest p0,
        shown_score (fold_left (keep_first Product shown_gt) rest p0)).
Proof.
  unfold ResultsDisplay.bestDeal. fold (shown_score p0).
  rewrite <- ResultsDisplay_visit_fold. simpl fold_left at 1.
  unfold ResultsDisplay.visit at 2. simpl snd. fold (shown_score p0).
  replace (Qgtb (shown_score p0) (shown_score p0)) with false; [reflexivity|].
  symmetry. apply Qgtb_false. lra.
Qed.

Lemma shown_scan_split (p0 : Product) (rest : list Product) :
  exists pre post,
    p0 :: rest = pre ++ fold_left (keep_first Product shown_gt) rest p0 :: post /\
    Forall (fun p => shown_gt (fold_left (keep_first Product shown_gt) rest p0) p = true) pre /\
    Forall (fun p => shown_gt p (fold_left (keep_first Product shown_gt) rest p0) = false) post.
Proof.
  apply (keep_first_split Product shown_gt (fun _ => True)).
  - intros x y z _ _ _. apply shown_gt_trans.
  - intros x y z _ _ _. apply shown_gt_le_trans.
  - exact I.
  - apply Forall_forall. intros; exact I.
Qed.

Lemma score_scan_split (p0 : Product) (rest : list Product) :
  Forall has_score (p0 :: rest) ->
  exists pre post,
    p0 :: rest = pre ++ fold_left (keep_first Product score_gt) rest p0 :: post /\
    Forall (fun p => score_gt (fold_left (keep_first Product score_gt) rest p0) p = true) pre /\
    Forall (fun p => score_gt p (fold_left (keep_first Product score_gt) rest p0) = false) post.
Proof.
  intros H. inversion_clear H.
  apply (keep_first_split Product score_gt has_score); auto.
  - apply score_gt_trans.
  - apply score_gt_le_trans.
Qed.

Lemma score_gt_irrefl (p : Product) : score_gt p p = false.
Proof.
  unfold score_gt, JS.gt. destruct (JS.to_number (final_score p)); [|reflexivity].
  apply Qgtb_false. lra.
Qed.

Lemma shown_gt_irrefl (p : Product) : shown_gt p p = false.
Proof. apply Qgtb_false. lra. Qed.

(** [filter(Boolean)] looks at the entry, not at its price: every record
    of every platform array reaches [allProducts]. *)
Lemma allProducts_keeps_every_record
  (products : ResultsDisplay.platforms) (platform : string)
  (arr : list (option Product)) (p : Product) :
  In (platform, Some arr) products -> In (Some p) arr ->
  In p (ResultsDisplay.allProducts products).
Proof.
  intros Hplat Harr. unfold ResultsDisplay.allProducts.
  assert (Hflat : In (Some p) (ResultsDisplay.flat (map snd products))).
  { unfold ResultsDisplay.flat. apply in_flat_map. exists (Some arr).
    split; [|exact Harr]. apply in_map_iff. now exists (platform, Some arr). }
  revert Hflat. generalize (ResultsDisplay.flat (map snd products)).
  induction l as [|[x|] l IH]; simpl; intros H.
  - contradiction.
  - destruct H as [[= ->]|H]; [now left | right; auto].
  - destruct H as [H|H]; [discriminate | auto].
Qed.

(** ** The selection *)

(** C1, refuted as stated: on the example of the specification both
    components return the record rated 3.0, the one with the highest
    [final_score], although the list holds records rated above 3.5; no
    record is filtered out by its rating. *)
Theorem C1_bestDeal_skips_rating_filter :
  exists best,
    AIRecommendation.bestDeal spec_example = Some best /\
    ResultsDisplay.bestDeal spec_example = Some (best, 88 # 100) /\
    product_name best = "second"%string /\
    rating best <= rating_threshold /\
    Exists (fun p => rating_threshold < rating p) spec_example.
Proof.
  eexists. split; [reflexivity|]. split; [reflexivity|]. split; [reflexivity|].
  split.
  - vm_compute. discriminate.
  - apply Exists_cons_hd. vm_compute. reflexivity.
Qed.

(** C2, refuted as stated: in [tied_pair] both records attain the maximum
    [final_score], and the selection returns the dearer one, not the one with
    the lowest price. *)
Lemma C2_tie_not_broken_by_price :
  ~ (forall best,
        AIRecommendation.bestDeal tied_pair = Some best ->
        forall p, In p tied_pair ->
                  JS.strict_eq (final_score p) (final_score best) = true ->
                  price best <= price p).
Proof.
  intros H.
  specialize (H (item "dear" 100 4 (JS.Num (1 # 2))) eq_refl
                (item "cheap" 50 4 (JS.Num (1 # 2)))).
  assert (C : 100 <= 50); [|revert C; vm_compute; intros C; now apply C].
  apply H; [simpl; auto | reflexivity].
Qed.

(** C2, as the code has it: on a list whose records all carry a score, the
    selection returns a record of maximal [final_score], and no record that
    reaches the score of the returned one stands before it in the list: a tie
    at the maximum goes to the earliest record, whatever the prices. *)
Theorem C2_tie_goes_to_earliest (products : list Product) (best : Product) :
  Forall has_score products ->
  AIRecommendation.bestDeal products = Some best ->
  Forall (fun p => score_gt p best = false) products /\
  exists i,
    nth_error products i = Some best /\
    forall j p, nth_error products j = Some p ->
                score_gt best p = false -> (i <= j)%nat.
Proof.
  intros Hs Hb. destruct products as [|p0 rest]; [discriminate|].
  rewrite AIRecommendation_bestDeal_cons in Hb. injection Hb as Hb.
  destruct (score_scan_split p0 rest Hs) as (pre & post & E & Hpre & Hpost).
  rewrite Hb in E, Hpre, Hpost. rewrite E. split.
  - apply Forall_app. split.
    + assert (Hgood : Forall has_score (pre ++ best :: post)) by now rewrite <- E.
      apply Forall_app in Hgood. destruct Hgood as [Hg1 Hg2].
      inversion_clear Hg2 as [|? ? Hgb _].
      rewrite Forall_forall in *. intros p Hp.
      specialize (Hpre p Hp). specialize (Hg1 p Hp).
      rewrite score_gt_shown in * by assumption.
      unfold shown_gt in *. rewrite Qgtb_true in Hpre. apply Qgtb_false. lra.
    + constructor; [apply score_gt_irrefl | assumption].
  - exists (List.length pre). split.
    + rewrite nth_error_app2 by lia. now rewrite Nat.sub_diag.
    + intros j p Hj Hp. destruct (Nat.lt_ge_cases j (List.length pre)) as [Hlt|Hge]; [|assumption].
      rewrite nth_error_app1 in Hj by assumption.
      apply nth_error_In in Hj. rewrite Forall_forall in Hpre.
      rewrite (Hpre p Hj) in Hp. discriminate.
Qed.

Lemma C2_tie_goes_to_earliest_witness :
  Forall (fun p => score_gt p (item "dear" 100 4 (JS.Num (1 # 2))) = false) tied_pair /\
  exists i,
    nth_error tied_pair i = Some (item "dear" 100 4 (JS.Num (1 # 2))) /\
    forall j p, nth_error tied_pair j = Some p ->
                score_gt (item "dear" 100 4 (JS.Num (1 # 2))) p = false -> (i <= j)%nat.
Proof.
  apply (C2_tie_goes_to_earliest tied_pair (item "dear" 100 4 (JS.Num (1 # 2)))).
  - repeat constructor.
  - reflexivity.
Defined.

(** C3: both components return nothing on the empty list, and on every
    non-empty list they return a record of the list. *)
Theorem C3_bestDeal_null_only_on_empty (products : list Product) :
  (products = [] ->
   AIRecommendation.bestDeal products = None /\
   ResultsDisplay.bestDeal products = None) /\
  (products <> [] ->
   (exists p, AIRecommendation.bestDeal products = Some p /\ In p products) /\
   (exists p m, ResultsDisplay.bestDeal products = Some (p, m) /\ In p products)).
Proof.
  split.
  - intros ->. split; reflexivity.
  - intros Hne. destruct products as [|p0 rest]; [congruence|]. split.
    + eexists. split; [apply AIRecommendation_bestDeal_cons|].
      apply keep_first_in.
    + do 2 eexists. split; [apply ResultsDisplay_bestDeal_cons|].
      apply keep_first_in.
Qed.

Lemma C3_bestDeal_null_only_on_empty_witness :
  (AIRecommendation.bestDeal [] = None /\ ResultsDisplay.bestDeal [] = None) /\
  ((exists p, AIRecommendation.bestDeal spec_example = Some p /\ In p spec_example) /\
   (exists p m, ResultsDisplay.bestDeal spec_example = Some (p, m) /\ In p spec_example)).
Proof.
  split.
  - apply (proj1 (C3_bestDeal_null_only_on_empty [])). reflexivity.
  - apply (proj2 (C3_bestDeal_null_only_on_empty spec_example)). discriminate.
Defined.

(** ** The grid *)

Lemma highlighted_spec (maxScore : Q) (p : Product) :
  ResultsDisplay.highlighted maxScore p = true <->
  exists q, final_score p = JS.Num q /\ q == maxScore.
Proof.
  unfold ResultsDisplay.highlighted, JS.strict_eq.
  destruct (final_score p) as [q| |].
  - rewrite Qeq_bool_iff. split.
    + intros H. now exists q.
    + intros (q' & [= <-] & H). exact H.
  - split; [discriminate | intros (q' & [=] & _)].
  - split; [discriminate | intros (q' & [=] & _)].
Qed.

(** C9: a tie at the maximum goes to the first record in input order, in
    the loop of the grid (on the shown score [final_score ?? 0]) and in the
    [reduce] of the recommendation card (on lists whose records all carry a
    score); the grid marks every displayed card whose [final_score] is a
    number equal to [maxScore], and [tied_pair] gets two marked cards. *)
Theorem C9_first_tie_wins_and_all_ties_marked :
  (forall (all : list Product) (expanded : bool),
      all <> [] ->
      exists best maxScore pre post,
        ResultsDisplay.bestDeal all = Some (best, maxScore) /\
        maxScore = shown_score best /\
        all = pre ++ best :: post /\
        Forall (fun p => shown_score p < maxScore) pre /\
        Forall (fun p => shown_score p <= maxScore) post /\
        (forall p, In p (ResultsDisplay.highlightedCards expanded all) <->
                   In p (ResultsDisplay.displayedProducts expanded all) /\
                   exists q, final_score p = JS.Num q /\ q == maxScore)) /\
  (forall products : list Product,
      products <> [] -> Forall has_score products ->
      exists best pre post,
        AIRecommendation.bestDeal products = Some best /\
        products = pre ++ best :: post /\
        Forall (fun p => score_gt best p = true) pre /\
        Forall (fun p => score_gt p best = false) post) /\
  List.length (ResultsDisplay.highlightedCards false tied_pair) = 2%nat.
Proof.
  split; [|split].
  - intros all expanded Hne. destruct all as [|p0 rest]; [congruence|].
    destruct (shown_scan_split p0 rest) as (pre & post & E & Hpre & Hpost).
    set (r := fold_left (keep_first Product shown_gt) rest p0) in *.
    exists r, (shown_score r), pre, post.
    assert (Hb : ResultsDisplay.bestDeal (p0 :: rest) = Some (r, shown_score r))
      by apply ResultsDisplay_bestDeal_cons.
    split; [exact Hb|]. split; [reflexivity|]. split; [exact E|].
    split; [|split].
    + eapply Forall_impl; [|exact Hpre]. intros p Hp. now apply Qgtb_true.
    + eapply Forall_impl; [|exact Hpost]. intros p Hp. now apply Qgtb_false.
    + intros p. unfold ResultsDisplay.highlightedCards. rewrite Hb.
      rewrite filter_In, highlighted_spec. reflexivity.
  - intros products Hne Hs. destruct products as [|p0 rest]; [congruence|].
    destruct (score_scan_split p0 rest Hs) as (pre & post & E & Hpre & Hpost).
    exists (fold_left (keep_first Product score_gt) rest p0), pre, post.
    split; [apply AIRecommendation_bestDeal_cons|]. auto.
  - reflexivity.
Qed.

Lemma C9_first_tie_wins_and_all_ties_marked_witness :
  (exists best maxScore pre post,
      ResultsDisplay.bestDeal tied_pair = Some (best, maxScore) /\
      maxScore = shown_score best /\
      tied_pair = pre ++ best :: post /\
      Forall (fun p => shown_score p < maxScore) pre /\
      Forall (fun p => shown_score p <= maxScore) post /\
      (forall p, In p (ResultsDisplay.highlightedCards true tied_pair) <->
                 In p (ResultsDisplay.displayedProducts true tied_pair) /\
                 exists q, final_score p = JS.Num q /\ q == maxScore)) /\
  (exists best pre post,
      AIRecommendation.bestDeal tied_pair = Some best /\
      tied_pair = pre ++ best :: post /\
      Forall (fun p => score_gt best p = true) pre /\
      Forall (fun p => score_gt p best = false) post).
Proof.
  split.
  - apply (proj1 C9_first_tie_wins_and_all_ties_marked tied_pair true).
    discriminate.
  - apply (proj1 (proj2 C9_first_tie_wins_and_all_ties_marked) tied_pair).
    + discriminate.
    + repeat constructor.
Defined.

(** C10: the loop of the grid reads a missing or null [final_score] as 0,
    returns a pair on every non-empty list, and as soon as some record has a
    strictly positive score the record it returns carries a number, at least
    as large as that score: a record without a score is not chosen over it. *)
Theorem C10_unscored_never_beats_positive :
  (forall p : Product,
      final_score p = JS.Undefined \/ final_score p = JS.Null ->
      JS.nullish (final_score p) 0 = 0) /\
  (forall all : list Product,
      all <> [] -> exists best maxScore, ResultsDisplay.bestDeal all = Some (best, maxScore)) /\
  (forall (all : list Product) (p : Product) (q : Q),
      In p all -> final_score p = JS.Num q -> 0 < q ->
      exists best maxScore,
        ResultsDisplay.bestDeal all = Some (best, maxScore) /\
        final_score best = JS.Num maxScore /\
        q <= maxScore).
Proof.
  split; [|split].
  - intros p [H|H]; now rewrite H.
  - intros all Hne. destruct all as [|p0 rest]; [congruence|].
    do 2 eexists. apply ResultsDisplay_bestDeal_cons.
  - intros all p q Hin Hq Hpos. destruct all as [|p0 rest]; [contradiction|].
    destruct (shown_scan_split p0 rest) as (pre & post & E & Hpre & Hpost).
    set (r := fold_left (keep_first Product shown_gt) rest p0) in *.
    assert (Hle : q <= shown_score r).
    { replace q with (shown_score p) by (unfold shown_score; now rewrite Hq).
      rewrite E in Hin. apply in_app_or in Hin.
      rewrite Forall_forall in Hpre, Hpost.
      destruct Hin as [Hin|[<-|Hin]].
      - apply Hpre, Qgtb_true in Hin. lra.
      - lra.
      - now apply Hpost, Qgtb_false in Hin. }
    exists r, (shown_score r).
    split; [apply ResultsDisplay_bestDeal_cons|]. split; [|exact Hle].
    unfold shown_score in *. destruct (final_score r); simpl in *;
      [reflexivity | lra | lra].
Qed.

Lemma C10_unscored_never_beats_positive_witness :
  JS.nullish (final_score (item "unscored" 10 4 JS.Undefined)) 0 = 0 /\
  (exists best maxScore, ResultsDisplay.bestDeal unscored_first = Some (best, maxScore)) /\
  (exists best maxScore,
      ResultsDisplay.bestDeal unscored_first = Some (best, maxScore) /\
      final_score best = JS.Num maxScore /\
      1 # 10 <= maxScore).
Proof.
  split; [|split].
  - apply (proj1 C10_unscored_never_beats_positive). left. reflexivity.
  - apply (proj1 (proj2 C10_unscored_never_beats_positive) unscored_first).
    discriminate.
  - apply (proj2 (proj2 C10_unscored_never_beats_positive) unscored_first
             (item "scored" 20 4 (JS.Num (1 # 10))) (1 # 10)).
    + simpl. auto.
    + reflexivity.
    + reflexivity.
Defined.

(** ** The deal scorer *)

Module ScorerFacts.
Import DealScorer.

Lemma fold_min_spec (rest : list ProductRecord) (m : Q) :
  let r := fold_left (fun m p => Qmin m (price p)) rest m in
  r <= m /\ Forall (fun p => r <= price p) rest /\
  (r == m \/ Exists (fun p => price p == r) rest).
Proof.
  revert m. induction rest as [|x rest IH]; intros m; simpl.
  - split; [lra|]. split; [constructor | left; reflexivity].
  - destruct (IH (Qmin m (price x))) as (H1 & H2 & H3).
    pose proof (Q.le_min_l m (price x)) as Hl.
    pose proof (Q.le_min_r m (price x)) as Hr.
    split; [lra|]. split; [constructor; [lra | assumption]|].
    destruct H3 as [H3|H3]; [|right; now apply Exists_cons_tl].
    destruct (Q.min_dec m (price x)) as [D|D].
    + left. lra.
    + right. apply Exists_cons_hd. lra.
Qed.

Lemma fold_max_spec (rest : list ProductRecord) (m : Q) :
  let r := fold_left (fun m p => Qmax m (price p)) rest m in
  m <= r /\ Forall (fun p => price p <= r) rest /\
  (r == m \/ Exists (fun p => price p == r) rest).
Proof.
  revert m. induction rest as [|x rest IH]; intros m; simpl.
  - split; [lra|]. split; [constructor | left; reflexivity].
  - destruct (IH (Qmax m (price x))) as (H1 & H2 & H3).
    pose proof (Q.le_max_l m (price x)) as Hl.
    pose proof (Q.le_max_r m (price x)) as Hr.
    split; [lra|]. split; [constructor; [lra | assumption]|].
    destruct H3 as [H3|H3]; [|right; now apply Exists_cons_tl].
    destruct (Q.max_dec m (price x)) as [D|D].
    + left. lra.
    + right. apply Exists_cons_hd. lra.
Qed.

Lemma minPrice_is_min (p0 : ProductRecord) (rest : list ProductRecord) :
  is_min_price (minPrice p0 rest) (p0 :: rest).
Proof.
  destruct (fold_min_spec rest (price p0)) as (H1 & H2 & H3).
  split.
  - constructor; assumption.
  - destruct H3 as [H3|H3].
    + apply Exists_cons_hd. unfold minPrice. lra.
    + now apply Exists_cons_tl.
Qed.

Lemma maxPrice_is_max (p0 : ProductRecord) (rest : list ProductRecord) :
  is_max_price (maxPrice p0 rest) (p0 :: rest).
Proof.
  destruct (fold_max_spec rest (price p0)) as (H1 & H2 & H3).
  split.
  - constructor; assumption.
  - destruct H3 as [H3|H3].
    + apply Exists_cons_hd. unfold maxPrice. lra.
    + now apply Exists_cons_tl.
Qed.

(** The guard makes the division total. *)
Lemma priceScore_total (mn mx p : Q) :
  (mx == mn /\ priceScore mn mx p = Ok 1) \/
  (~ mx == mn /\ priceScore mn mx p = Ok (1 - (p - mn) / (mx - mn))).
Proof.
  unfold priceScore, divide.
  destruct (Qeq_bool mx mn) eqn:G.
  - left. split; [now apply Qeq_bool_iff | reflexivity].
  - right. assert (N : ~ mx == mn).
    { intros H. apply Qeq_bool_iff in H. congruence. }
    split; [exact N|].
    destruct (Qeq_bool (mx - mn) 0) eqn:D; [|reflexivity].
    apply Qeq_bool_iff in D. exfalso. apply N. lra.
Qed.

(** Without the guard the formula of the README stops on equal prices. *)
Lemma readme_price_score_equal_prices (c p : Q) :
  readme_price_score c c p = ZeroDivision.
Proof.
  unfold readme_price_score, divide.
  replace (Qeq_bool (c - c) 0) with true; [reflexivity|].
  symmetry. apply Qeq_bool_iff. lra.
Qed.

Lemma scoreOne_total (mn mx : Q) (p : ProductRecord) :
  exists s,
    scoreOne mn mx p = Ok s /\ record s = p /\
    recommendation s = label (final_score s) /\
    ((mx == mn /\ priceScore mn mx (price p) = Ok 1 /\
      final_score s = finalScore 1 (ratingScore (rating p))) \/
     (~ mx == mn /\
      final_score s =
      finalScore (1 - (price p - mn) / (mx - mn)) (ratingScore (rating p)))).
Proof.
  unfold scoreOne.
  destruct (priceScore_total mn mx (price p)) as [[E H]|[E H]]; rewrite H; simpl;
    eexists; (split; [reflexivity|]); simpl; (split; [reflexivity|]);
    (split; [reflexivity|]); [left | right]; auto.
Qed.

Lemma mapM_total {A B : Type} (f : A -> outcome B) (l : list A) :
  (forall x, In x l -> exists y, f x = Ok y) ->
  exists ys, mapM f l = Ok ys /\ Forall2 (fun x y => f x = Ok y) l ys.
Proof.
  induction l as [|x l IH]; intros H; simpl.
  - exists []. split; [reflexivity | constructor].
  - destruct (H x (or_introl eq_refl)) as (y & Hy).
    destruct IH as (ys & Hys & HF); [intros; apply H; now right|].
    exists (y :: ys). rewrite Hy, Hys. split; [reflexivity | now constructor].
Qed.

Lemma Forall2_right_in {A B : Type} (R : A -> B -> Prop) (l : list A) (l' : list B) :
  Forall2 R l l' -> forall y, In y l' -> exists x, In x l /\ R x y.
Proof.
  induction 1 as [|x y l l' Hxy _ IH]; intros z Hz; [contradiction|].
  destruct Hz as [<-|Hz].
  - exists x. split; [now left | assumption].
  - destruct (IH z Hz) as (x' & Hin & HR). exists x'. split; [now right | assumption].
Qed.

(** What [scoreAndRank] returns, on every input. *)
Lemma scoreAndRank_total (products : list ProductRecord) :
  exists scored,
    scoreAndRank products = Ok scored /\
    map record scored = filter validPrice products /\
    (scored <> [] ->
     exists mn mx,
       is_min_price mn (filter validPrice products) /\
       is_max_price mx (filter validPrice products) /\
       forall s, In s scored -> scoreOne mn mx (record s) = Ok s).
Proof.
  unfold scoreAndRank. destruct (filter validPrice products) as [|p0 rest] eqn:V.
  - exists []. split; [reflexivity|]. split; [reflexivity|]. congruence.
  - set (mn := minPrice p0 rest). set (mx := maxPrice p0 rest).
    destruct (mapM_total (scoreOne mn mx) (p0 :: rest)) as (ys & Hys & HF).
    { intros x _. destruct (scoreOne_total mn mx x) as (s & Hs & _). now exists s. }
    exists ys. split; [exact Hys|]. split.
    + clear Hys V. induction HF as [|x y l l' Hxy _ IH]; [reflexivity|].
      simpl. f_equal; [|exact IH].
      destruct (scoreOne_total mn mx x) as (s & Hs & Hr & _). congruence.
    + intros _. exists mn, mx.
      split; [apply minPrice_is_min|]. split; [apply maxPrice_is_max|].
      intros s Hin.
      destruct (Forall2_right_in _ _ _ HF s Hin) as (x & _ & Hx).
      destruct (scoreOne_total mn mx x) as (s' & Hs' & Hr & _).
      assert (s' = s) by congruence. subst s'. now rewrite Hr.
Qed.

Lemma validPrice_true (p : ProductRecord) : validPrice p = true <-> 0 < price p.
Proof. apply Qgtb_true. Qed.

End ScorerFacts.

(** ** Arithmetic of the price score *)

Lemma Qdiv_le_mono (a b d : Q) : 0 < d -> a <= b -> a / d <= b / d.
Proof.
  intros Hd Hab. unfold Qdiv. apply Qmult_le_compat_r; [assumption|].
  apply Qinv_le_0_compat. lra.
Qed.

Lemma price_ratio_bounds (mn mx p : Q) :
  mn < mx -> mn <= p -> p <= mx ->
  0 <= (p - mn) / (mx - mn) /\ (p - mn) / (mx - mn) <= 1.
Proof.
  intros H1 H2 H3. split.
  - apply Qle_shift_div_l; lra.
  - apply Qle_shift_div_r; lra.
Qed.

Lemma rating_score_bounds (r : Q) :
  0 <= r -> r <= 5 -> 0 <= r / 5 /\ r / 5 <= 1.
Proof.
  intros H1 H2. split.
  - apply Qle_shift_div_l; lra.
  - apply Qle_shift_div_r; lra.
Qed.

Lemma min_le_max_price (mn mx : Q) (l : list DealScorer.ProductRecord) :
  is_min_price mn l -> is_max_price mx l -> mn <= mx.
Proof.
  intros [_ Hex] [Hall _]. apply Exists_exists in Hex.
  destruct Hex as (p & Hin & Hp). rewrite Forall_forall in Hall.
  specialize (Hall p Hin). lra.
Qed.

(** Every scored record, with the extremes of its set: the record passed the
    price exclusion, its price lies between the extremes and its score is the
    weighted sum, with the price score 1 on equal extremes. *)
Lemma scored_record_facts (products : list DealScorer.ProductRecord) :
  exists scored,
    DealScorer.scoreAndRank products = DealScorer.Ok scored /\
    map DealScorer.record scored = filter DealScorer.validPrice products /\
    (scored <> [] ->
     exists mn mx,
       is_min_price mn (filter DealScorer.validPrice products) /\
       is_max_price mx (filter DealScorer.validPrice products) /\
       mn <= mx /\
       forall s, In s scored ->
         mn <= DealScorer.price (DealScorer.record s) <= mx /\
         ((mx == mn /\
           DealScorer.priceScore mn mx (DealScorer.price (DealScorer.record s)) = DealScorer.Ok 1 /\
           DealScorer.final_score s =
           DealScorer.finalScore 1
             (DealScorer.ratingScore (DealScorer.rating (DealScorer.record s)))) \/
          (mn < mx /\
           DealScorer.final_score s =
           DealScorer.finalScore
             (1 - (DealScorer.price (DealScorer.record s) - mn) / (mx - mn))
             (DealScorer.ratingScore (DealScorer.rating (DealScorer.record s)))))).
Proof.
  destruct (ScorerFacts.scoreAndRank_total products) as (scored & Hok & Hmap & Hs).
  exists scored. split; [exact Hok|]. split; [exact Hmap|].
  intros Hne. destruct (Hs Hne) as (mn & mx & Hmin & Hmax & Hone).
  pose proof (min_le_max_price _ _ _ Hmin Hmax) as Hle.
  exists mn, mx. split; [exact Hmin|]. split; [exact Hmax|]. split; [exact Hle|].
  intros s Hin.
  assert (Hrec : In (DealScorer.record s) (filter DealScorer.validPrice products)).
  { rewrite <- Hmap. now apply in_map. }
  assert (Hb : mn <= DealScorer.price (DealScorer.record s) <= mx).
  { destruct Hmin as [Hmin _]. destruct Hmax as [Hmax _].
    rewrite Forall_forall in Hmin, Hmax. split; auto. }
  split; [exact Hb|].
  destruct (ScorerFacts.scoreOne_total mn mx (DealScorer.record s))
    as (s' & Hs' & _ & _ & Hcase).
  rewrite (Hone s Hin) in Hs'. injection Hs' as <-.
  destruct Hcase as [(E & P & F)|(N & F)].
  - left. auto.
  - right. split; [|exact F]. destruct (Qlt_le_dec mn mx) as [L|G]; [exact L|].
    exfalso. apply N. lra.
Qed.

(** ** The scored set *)

(** C4: [scoreAndRank] returns a scored set on every input, its records are
    the valid input records (price above 0) in input order, and every one of
    them has the final score [0.7 * priceScore + 0.3 * (rating / 5)], where
    the price score is 1 when the least and the greatest price of the valid
    records are equal and [1 - (price - minPrice) / (maxPrice - minPrice)]
    otherwise. *)
Theorem C4_final_score_formula (products : list DealScorer.ProductRecord) :
  exists scored,
    DealScorer.scoreAndRank products = DealScorer.Ok scored /\
    map DealScorer.record scored = filter DealScorer.validPrice products /\
    (filter DealScorer.validPrice products <> [] ->
     exists minPrice maxPrice,
       is_min_price minPrice (filter DealScorer.validPrice products) /\
       is_max_price maxPrice (filter DealScorer.validPrice products) /\
       (forall s, In s scored ->
          let p := DealScorer.record s in
          (maxPrice == minPrice ->
           DealScorer.final_score s ==
           (7 # 10) * 1 + (3 # 10) * (DealScorer.rating p / 5)) /\
          (~ maxPrice == minPrice ->
           DealScorer.final_score s ==
           (7 # 10) * (1 - (DealScorer.price p - minPrice) / (maxPrice - minPrice))
           + (3 # 10) * (DealScorer.rating p / 5))) /\
       (forall p, In p products -> 0 < DealScorer.price p ->
          exists s,
            In s scored /\ DealScorer.record s = p /\
            (maxPrice == minPrice ->
             DealScorer.final_score s ==
             (7 # 10) * 1 + (3 # 10) * (DealScorer.rating p / 5)) /\
            (~ maxPrice == minPrice ->
             DealScorer.final_score s ==
             (7 # 10) * (1 - (DealScorer.price p - minPrice) / (maxPrice - minPrice))
             + (3 # 10) * (DealScorer.rating p / 5)))).
Proof.
  destruct (scored_record_facts products) as (scored & Hok & Hmap & Hs).
  exists scored. split; [exact Hok|]. split; [exact Hmap|]. intros Hvalid.
  assert (Hne : scored <> []).
  { intros ->. simpl in Hmap. congruence. }
  destruct (Hs Hne) as (mn & mx & Hmin & Hmax & _ & Hall).
  exists mn, mx. split; [exact Hmin|]. split; [exact Hmax|].
  assert (Hform : forall s, In s scored ->
            (mx == mn ->
             DealScorer.final_score s ==
             (7 # 10) * 1 + (3 # 10) * (DealScorer.rating (DealScorer.record s) / 5)) /\
            (~ mx == mn ->
             DealScorer.final_score s ==
             (7 # 10) * (1 - (DealScorer.price (DealScorer.record s) - mn) / (mx - mn))
             + (3 # 10) * (DealScorer.rating (DealScorer.record s) / 5))).
  { intros s Hin.
    destruct (Hall s Hin) as (_ & [(E & _ & F)|(L & F)]); rewrite F;
      unfold DealScorer.finalScore, DealScorer.ratingScore; split; intros H.
    - reflexivity.
    - contradiction.
    - exfalso. lra.
    - reflexivity. }
  split.
  - intros s Hin p. subst p. now apply Hform.
  - intros p Hin Hp.
    assert (Hf : In p (map DealScorer.record scored)).
    { rewrite Hmap. apply filter_In. split; [exact Hin|].
      now apply ScorerFacts.validPrice_true. }
    apply in_map_iff in Hf. destruct Hf as (s & Hrec & Hs').
    exists s. split; [exact Hs'|]. split; [exact Hrec|].
    rewrite <- Hrec. now apply Hform.
Qed.

Lemma C4_final_score_formula_witness :
  exists scored,
    DealScorer.scoreAndRank spec_records = DealScorer.Ok scored /\
    map DealScorer.record scored = filter DealScorer.validPrice spec_records /\
    exists minPrice maxPrice,
      is_min_price minPrice (filter DealScorer.validPrice spec_records) /\
      is_max_price maxPrice (filter DealScorer.validPrice spec_records) /\
      (forall s, In s scored ->
         let p := DealScorer.record s in
         (maxPrice == minPrice ->
          DealScorer.final_score s ==
          (7 # 10) * 1 + (3 # 10) * (DealScorer.rating p / 5)) /\
         (~ maxPrice == minPrice ->
          DealScorer.final_score s ==
          (7 # 10) * (1 - (DealScorer.price p - minPrice) / (maxPrice - minPrice))
          + (3 # 10) * (DealScorer.rating p / 5))) /\
      (forall p, In p spec_records -> 0 < DealScorer.price p ->
         exists s,
           In s scored /\ DealScorer.record s = p /\
           (maxPrice == minPrice ->
            DealScorer.final_score s ==
            (7 # 10) * 1 + (3 # 10) * (DealScorer.rating p / 5)) /\
           (~ maxPrice == minPrice ->
            DealScorer.final_score s ==
            (7 # 10) * (1 - (DealScorer.price p - minPrice) / (maxPrice - minPrice))
            + (3 # 10) * (DealScorer.rating p / 5))).
Proof.
  destruct (C4_final_score_formula spec_records) as (scored & Hok & Hmap & H).
  exists scored. split; [exact Hok|]. split; [exact Hmap|]. apply H.
  vm_compute. discriminate.
Defined.

(** C5: when all records have the same price, [scoreAndRank] returns a
    scored set (no division by zero stops it) whose records are the valid
    input records; the extremes of the set are equal, the price score of
    every input record is the guarded 1, and every input record is scored
    with it. *)
Theorem C5_equal_prices_score_one (products : list DealScorer.ProductRecord) (c : Q) :
  Forall (fun p => DealScorer.price p == c) products ->
  exists scored,
    DealScorer.scoreAndRank products = DealScorer.Ok scored /\
    map DealScorer.record scored = filter DealScorer.validPrice products /\
    (filter DealScorer.validPrice products <> [] ->
     exists minPrice maxPrice,
       is_min_price minPrice (filter DealScorer.validPrice products) /\
       is_max_price maxPrice (filter DealScorer.validPrice products) /\
       maxPrice == minPrice /\
       (forall p, In p products ->
          DealScorer.priceScore minPrice maxPrice (DealScorer.price p) = DealScorer.Ok 1 /\
          exists s,
            In s scored /\ DealScorer.record s = p /\
            DealScorer.final_score s ==
            (7 # 10) + (3 # 10) * (DealScorer.rating p / 5)) /\
       (forall s, In s scored ->
          DealScorer.priceScore minPrice maxPrice
            (DealScorer.price (DealScorer.record s)) = DealScorer.Ok 1 /\
          DealScorer.final_score s ==
          (7 # 10) + (3 # 10) * (DealScorer.rating (DealScorer.record s) / 5))).
Proof.
  intros Hc.
  destruct (scored_record_facts products) as (scored & Hok & Hmap & Hs).
  exists scored. split; [exact Hok|]. split; [exact Hmap|]. intros Hvalid.
  assert (Hne : scored <> []).
  { intros ->. simpl in Hmap. congruence. }
  destruct (Hs Hne) as (mn & mx & Hmin & Hmax & Hle & Hall).
  assert (Hsub : forall m, Exists (fun p => DealScorer.price p == m)
                             (filter DealScorer.validPrice products) ->
                           m == c /\ 0 < c).
  { intros m Hex. apply Exists_exists in Hex. destruct Hex as (p & Hin & Hp).
    apply filter_In in Hin. destruct Hin as [Hin Hv].
    apply ScorerFacts.validPrice_true in Hv.
    rewrite Forall_forall in Hc. specialize (Hc p Hin). split; lra. }
  destruct (Hsub mn (proj2 Hmin)) as (Hmn & Hcpos).
  destruct (Hsub mx (proj2 Hmax)) as (Hmx & _).
  assert (Heq : mx == mn) by lra.
  assert (Hone : forall x, DealScorer.priceScore mn mx x = DealScorer.Ok 1).
  { intros x. destruct (ScorerFacts.priceScore_total mn mx x) as [(_ & P)|(N & _)];
      [exact P | contradiction]. }
  assert (Hform : forall s, In s scored ->
            DealScorer.final_score s ==
            (7 # 10) + (3 # 10) * (DealScorer.rating (DealScorer.record s) / 5)).
  { intros s Hin.
    destruct (Hall s Hin) as (_ & [(E & P & F)|(L & _)]); [|exfalso; lra].
    rewrite F. unfold DealScorer.finalScore, DealScorer.ratingScore. lra. }
  exists mn, mx. split; [exact Hmin|]. split; [exact Hmax|]. split; [exact Heq|].
  split.
  - intros p Hin. split; [apply Hone|].
    assert (Hf : In p (map DealScorer.record scored)).
    { rewrite Hmap. apply filter_In. split; [exact Hin|].
      apply ScorerFacts.validPrice_true.
      rewrite Forall_forall in Hc. specialize (Hc p Hin). lra. }
    apply in_map_iff in Hf. destruct Hf as (s & Hrec & Hs').
    exists s. split; [exact Hs'|]. split; [exact Hrec|].
    rewrite <- Hrec. now apply Hform.
  - intros s Hin. split; [apply Hone | now apply Hform].
Qed.

Lemma C5_equal_prices_score_one_witness :
  exists scored,
    DealScorer.scoreAndRank same_price_records = DealScorer.Ok scored /\
    map DealScorer.record scored = filter DealScorer.validPrice same_price_records /\
    exists minPrice maxPrice,
      is_min_price minPrice (filter DealScorer.validPrice same_price_records) /\
      is_max_price maxPrice (filter DealScorer.validPrice same_price_records) /\
      maxPrice == minPrice /\
      (forall p, In p same_price_records ->
         DealScorer.priceScore minPrice maxPrice (DealScorer.price p) = DealScorer.Ok 1 /\
         exists s,
           In s scored /\ DealScorer.record s = p /\
           DealScorer.final_score s ==
           (7 # 10) + (3 # 10) * (DealScorer.rating p / 5)) /\
      (forall s, In s scored ->
         DealScorer.priceScore minPrice maxPrice
           (DealScorer.price (DealScorer.record s)) = DealScorer.Ok 1 /\
         DealScorer.final_score s ==
         (7 # 10) + (3 # 10) * (DealScorer.rating (DealScorer.record s) / 5)).
Proof.
  destruct (C5_equal_prices_score_one same_price_records 60) as (scored & Hok & Hmap & H).
  - repeat constructor.
  - exists scored. split; [exact Hok|]. split; [exact Hmap|]. apply H.
    vm_compute. discriminate.
Defined.

(** C6: on a non-empty list of valid records (price above 0, rating from 0
    to 5) [scoreAndRank] returns a non-empty scored set and every
    [final_score] of it lies in the closed interval from 0 to 1. *)
Theorem C6_final_score_in_unit_interval (products : list DealScorer.ProductRecord) :
  products <> [] ->
  Forall (fun p => 0 < DealScorer.price p /\
                   0 <= DealScorer.rating p /\ DealScorer.rating p <= 5) products ->
  exists scored,
    DealScorer.scoreAndRank products = DealScorer.Ok scored /\
    scored <> [] /\
    Forall (fun s => 0 <= DealScorer.final_score s /\ DealScorer.final_score s <= 1) scored.
Proof.
  intros Hne Hvalid.
  destruct (scored_record_facts products) as (scored & Hok & Hmap & Hs).
  assert (Hid : filter DealScorer.validPrice products = products).
  { clear - Hvalid. induction Hvalid as [|p l (Hp & _) _ IH]; [reflexivity|].
    simpl. apply ScorerFacts.validPrice_true in Hp. rewrite Hp. now f_equal. }
  rewrite Hid in Hmap.
  assert (Hne' : scored <> []).
  { intros ->. simpl in Hmap. congruence. }
  exists scored. split; [exact Hok|]. split; [exact Hne'|].
  destruct (Hs Hne') as (mn & mx & _ & _ & _ & Hall).
  apply Forall_forall. intros s Hin.
  assert (Hr : 0 <= DealScorer.rating (DealScorer.record s) /\
               DealScorer.rating (DealScorer.record s) <= 5).
  { rewrite Forall_forall in Hvalid.
    apply (Hvalid (DealScorer.record s)). rewrite <- Hmap. now apply in_map. }
  destruct (Hall s Hin) as ((B1 & B2) & [(E & _ & F)|(L & F)]); rewrite F;
    unfold DealScorer.finalScore, DealScorer.ratingScore;
    destruct Hr as (Hr1 & Hr2);
    destruct (rating_score_bounds _ Hr1 Hr2) as (S1 & S2);
    set (rs := DealScorer.rating (DealScorer.record s) / 5) in *.
  - split; lra.
  - destruct (price_ratio_bounds mn mx _ L B1 B2) as (R1 & R2).
    set (t := (DealScorer.price (DealScorer.record s) - mn) / (mx - mn)) in *.
    split; lra.
Qed.

Lemma C6_final_score_in_unit_interval_witness :
  exists scored,
    DealScorer.scoreAndRank spec_records = DealScorer.Ok scored /\
    scored <> [] /\
    Forall (fun s => 0 <= DealScorer.final_score s /\ DealScorer.final_score s <= 1) scored.
Proof.
  apply (C6_final_score_in_unit_interval spec_records).
  - discriminate.
  - unfold spec_records. repeat constructor; simpl; lra.
Defined.

(** C7: within one scored set, a record whose price is not higher and whose
    rating is not lower than those of another record never has the lower
    [final_score]; with equal ratings this is the price axis alone, with
    equal prices the rating axis alone. *)
Theorem C7_score_monotone (products : list DealScorer.ProductRecord) :
  exists scored,
    DealScorer.scoreAndRank products = DealScorer.Ok scored /\
    forall a b, In a scored -> In b scored ->
      DealScorer.price (DealScorer.record a) <= DealScorer.price (DealScorer.record b) ->
      DealScorer.rating (DealScorer.record b) <= DealScorer.rating (DealScorer.record a) ->
      DealScorer.final_score b <= DealScorer.final_score a.
Proof.
  destruct (scored_record_facts products) as (scored & Hok & _ & Hs).
  exists scored. split; [exact Hok|]. intros a b Ha Hb Hp Hr.
  assert (Hne : scored <> []) by (intros ->; contradiction).
  destruct (Hs Hne) as (mn & mx & _ & _ & _ & Hall).
  destruct (Hall a Ha) as (_ & [(Ea & _ & Fa)|(La & Fa)]);
    destruct (Hall b Hb) as (_ & [(Eb & _ & Fb)|(Lb & Fb)]);
    rewrite Fa, Fb; unfold DealScorer.finalScore, DealScorer.ratingScore;
    try (exfalso; lra).
  - assert (Hq : DealScorer.rating (DealScorer.record b) / 5 <=
                 DealScorer.rating (DealScorer.record a) / 5).
    { apply Qdiv_le_mono; lra. }
    lra.
  - assert (Hq : DealScorer.rating (DealScorer.record b) / 5 <=
                 DealScorer.rating (DealScorer.record a) / 5).
    { apply Qdiv_le_mono; lra. }
    assert (Hd : (DealScorer.price (DealScorer.record a) - mn) / (mx - mn) <=
                 (DealScorer.price (DealScorer.record b) - mn) / (mx - mn)).
    { apply Qdiv_le_mono; lra. }
    set (ta := (DealScorer.price (DealScorer.record a) - mn) / (mx - mn)) in *.
    set (tb := (DealScorer.price (DealScorer.record b) - mn) / (mx - mn)) in *.
    lra.
Qed.

Lemma C7_score_monotone_witness :
  exists scored,
    DealScorer.scoreAndRank spec_records = DealScorer.Ok scored /\
    DealScorer.final_score (DealScorer.mkScored (DealScorer.mkRecord "first" 100 4 "shop" "")
                              (6000 # 25000) "Fair")
    <= DealScorer.final_score (DealScorer.mkScored (DealScorer.mkRecord "third" 75 (45 # 10) "shop" "")
                                 (155000 # 250000) "Good Value").
Proof.
  destruct (C7_score_monotone spec_records) as (scored & Hok & H).
  exists scored. split; [exact Hok|].
  vm_compute in Hok. injection Hok as <-.
  apply H.
  - right. right. left. reflexivity.
  - left. reflexivity.
  - vm_compute. discriminate.
  - vm_compute. discriminate.
Defined.

(** C8: [scoreAndRank] never stops with an error; the records of its scored
    set are exactly the input records with a price above 0, in input order,
    so a record with a price of 0 or below is dropped without a trace and
    every other record gets a score. *)
Theorem C8_non_positive_prices_dropped (products : list DealScorer.ProductRecord) :
  exists scored,
    DealScorer.scoreAndRank products = DealScorer.Ok scored /\
    map DealScorer.record scored = filter DealScorer.validPrice products /\
    (forall p, In p products -> DealScorer.price p <= 0 ->
               ~ In p (map DealScorer.record scored)) /\
    (forall p, In p products -> 0 < DealScorer.price p ->
               exists s, In s scored /\ DealScorer.record s = p).
Proof.
  destruct (scored_record_facts products) as (scored & Hok & Hmap & _).
  exists scored. split; [exact Hok|]. split; [exact Hmap|]. split.
  - intros p _ Hp Hin. rewrite Hmap in Hin. apply filter_In in Hin.
    destruct Hin as [_ Hv]. apply ScorerFacts.validPrice_true in Hv. lra.
  - intros p Hin Hp.
    assert (Hf : In p (map DealScorer.record scored)).
    { rewrite Hmap. apply filter_In. split; [exact Hin|].
      now apply ScorerFacts.validPrice_true. }
    apply in_map_iff in Hf. destruct Hf as (s & Hs & Hin'). now exists s.
Qed.

Lemma C8_non_positive_prices_dropped_witness :
  exists scored,
    DealScorer.scoreAndRank mixed_records = DealScorer.Ok scored /\
    ~ In (DealScorer.mkRecord "refund" (-5) 1 "shop" "") (map DealScorer.record scored) /\
    exists s, In s scored /\ DealScorer.record s = DealScorer.mkRecord "b" 80 (45 # 10) "shop" "".
Proof.
  destruct (C8_non_positive_prices_dropped mixed_records) as (scored & Hok & _ & Hdrop & Hkeep).
  exists scored. split; [exact Hok|]. split.
  - apply Hdrop.
    + simpl. auto.
    + vm_compute. discriminate.
  - apply Hkeep.
    + simpl. auto.
    + reflexivity.
Defined.

(** The worked example of the specification: price scores 0, 1 and 0.5 give
    the final scores 0.24, 0.88 and 0.62, the scores of [spec_example]. *)
Lemma spec_records_scores :
  exists scored,
    DealScorer.scoreAndRank spec_records = DealScorer.Ok scored /\
    Forall2 (fun s p => JS.strict_eq (JS.Num (DealScorer.final_score s)) (final_score p) = true)
            scored spec_example.
Proof.
  eexists. split; [vm_compute; reflexivity|].
  repeat constructor.
Qed.

(** * Further properties of the components *)

(** ** [ResultsDisplay.tsx]: the flattened list and the platform names *)

Lemma filter_Boolean_In (xs : list (option Product)) (p : Product) :
  In p (ResultsDisplay.filter_Boolean xs) <-> In (Some p) xs.
Proof.
  induction xs as [|[x|] xs IH]; simpl.
  - tauto.
  - rewrite IH. split; intros [H|H]; auto; left; congruence.
  - rewrite IH. split; [auto | intros [H|H]; [discriminate | auto]].
Qed.

Lemma filter_Boolean_app (xs ys : list (option Product)) :
  ResultsDisplay.filter_Boolean (xs ++ ys) =
  ResultsDisplay.filter_Boolean xs ++ ResultsDisplay.filter_Boolean ys.
Proof.
  induction xs as [|[x|] xs IH]; simpl; [reflexivity | now f_equal | exact IH].
Qed.

(** The flattened list holds exactly the records that stand, not as [null],
    in the array of some platform; a [null] platform and a [null] entry add
    nothing. *)
Theorem allProducts_exactly_present (products : ResultsDisplay.platforms) (p : Product) :
  In p (ResultsDisplay.allProducts products) <->
  exists platform arr, In (platform, Some arr) products /\ In (Some p) arr.
Proof.
  unfold ResultsDisplay.allProducts, ResultsDisplay.flat.
  rewrite filter_Boolean_In, in_flat_map. split.
  - intros (v & Hv & Hp). apply in_map_iff in Hv. destruct Hv as ((k & v') & <- & Hin).
    simpl in Hp. destruct v' as [arr|].
    + now exists k, arr.
    + destruct Hp as [Hp|[]]. discriminate.
  - intros (k & arr & Hin & Hp). exists (Some arr). split; [|exact Hp].
    apply in_map_iff. now exists (k, Some arr).
Qed.

Lemma lookup_In (products : ResultsDisplay.platforms) (k : string)
  (v : option (list (option Product))) :
  ResultsDisplay.lookup k products = Some v -> In (k, v) products.
Proof.
  induction products as [|(k' & v') r IH]; simpl; [discriminate|].
  destruct (String.eqb k k') eqn:E.
  - apply String.eqb_eq in E. intros [= ->]. left. now subst.
  - intros H. right. now apply IH.
Qed.

Lemma In_lookup (products : ResultsDisplay.platforms) (k : string)
  (v : option (list (option Product))) :
  NoDup (map fst products) -> In (k, v) products ->
  ResultsDisplay.lookup k products = Some v.
Proof.
  induction products as [|(k' & v') r IH]; simpl; [contradiction|].
  intros Hnd Hin. inversion_clear Hnd as [|? ? Hk' Hr].
  destruct (String.eqb k k') eqn:E.
  - apply String.eqb_eq in E. subst k'. destruct Hin as [[= ->]|Hin]; [reflexivity|].
    exfalso. apply Hk'. apply in_map_iff. now exists (k, v).
  - apply String.eqb_neq in E. destruct Hin as [[= -> ->]|Hin]; [congruence|].
    now apply IH.
Qed.

(** On an object (distinct keys) the names shown are exactly the keys whose
    value is a non-empty array, and every record of the flattened list comes
    from a platform that is named. *)
Theorem platformNames_cover_allProducts (products : ResultsDisplay.platforms) :
  NoDup (map fst products) ->
  (forall name, In name (ResultsDisplay.platformNames products) <->
                exists arr, In (name, Some arr) products /\ arr <> []) /\
  (forall p, In p (ResultsDisplay.allProducts products) ->
             exists name arr,
               In name (ResultsDisplay.platformNames products) /\
               In (name, Some arr) products /\ In (Some p) arr).
Proof.
  intros Hnd.
  assert (Hnames : forall name, In name (ResultsDisplay.platformNames products) <->
                                exists arr, In (name, Some arr) products /\ arr <> []).
  { intros name. unfold ResultsDisplay.platformNames, ResultsDisplay.hasProducts.
    rewrite filter_In. split.
    - intros (_ & H). destruct (ResultsDisplay.lookup name products) as [[arr|]|] eqn:L;
        try discriminate.
      exists arr. split; [now apply lookup_In|].
      intros ->. simpl in H. discriminate.
    - intros (arr & Hin & Hne). split.
      + apply in_map_iff. now exists (name, Some arr).
      + rewrite (In_lookup _ _ _ Hnd Hin). destruct arr; [congruence | reflexivity]. }
  split; [exact Hnames|].
  intros p Hp. apply allProducts_exactly_present in Hp.
  destruct Hp as (name & arr & Hin & Harr). exists name, arr.
  split; [|now split]. apply Hnames. exists arr. split; [exact Hin|].
  intros ->. contradiction.
Qed.

Lemma platformNames_cover_allProducts_witness :
  exists name arr,
    In name (ResultsDisplay.platformNames three_shops) /\
    In (name, Some arr) three_shops /\
    In (Some (item "first" 100 4 (JS.Num (24 # 100)))) arr.
Proof.
  apply (proj2 (platformNames_cover_allProducts three_shops
                  ltac:(repeat constructor; simpl; intuition discriminate))).
  simpl. auto.
Defined.

(** ** [ResultsDisplay.tsx] and [ViewMoreButton.tsx]: what is shown *)

(** The cards shown are a prefix of the products.  Products stay hidden only
    in the collapsed state of a list of more than four, which is when the
    button is rendered, and the button then announces exactly the number of
    hidden products. *)
Theorem hidden_products_have_a_button (all : list Product) (expanded : bool) :
  exists hidden,
    all = ResultsDisplay.displayedProducts expanded all ++ hidden /\
    (hidden <> [] <-> expanded = false /\ ResultsDisplay.showsViewMore all = true) /\
    ViewMoreButton.label expanded (ResultsDisplay.totalProducts all)
                         (ResultsDisplay.displayedTotal expanded all) =
    (if expanded then ViewMoreButton.ShowLess
     else ViewMoreButton.ViewMore (Z.of_nat (List.length hidden))).
Proof.
  unfold ResultsDisplay.displayedProducts, ResultsDisplay.showsViewMore,
    ResultsDisplay.totalProducts, ResultsDisplay.displayedTotal,
    ResultsDisplay.displayedProducts, ViewMoreButton.label,
    ResultsDisplay.initialCount.
  destruct expanded.
  - exists []. split; [now rewrite app_nil_r|]. split; [|reflexivity].
    split; [congruence | intros [H _]; discriminate].
  - exists (skipn 4 all). split; [symmetry; apply firstn_skipn|]. split.
    + rewrite Nat.ltb_lt. split.
      * intros H. split; [reflexivity|].
        destruct (Nat.lt_ge_cases 4 (List.length all)) as [L|G]; [exact L|].
        exfalso. apply H. now apply skipn_all2.
      * intros [_ H] E. apply (f_equal (@List.length _)) in E.
        rewrite length_skipn in E. simpl in E. lia.
    + f_equal. rewrite length_skipn, length_firstn. lia.
Qed.

(** ** [ResultsDisplay.tsx]: the marked cards *)

Lemma grid_best_is_greatest (all : list Product) (best : Product) (maxScore : Q) :
  ResultsDisplay.bestDeal all = Some (best, maxScore) ->
  maxScore = shown_score best /\ In best all /\
  Forall (fun p => shown_score p <= maxScore) all.
Proof.
  destruct all as [|p0 rest]; [discriminate|].
  rewrite ResultsDisplay_bestDeal_cons. intros [= <- <-].
  split; [reflexivity|]. split; [apply keep_first_in|].
  destruct (shown_scan_split p0 rest) as (pre & post & E & Hpre & Hpost).
  rewrite E at 1. apply Forall_app. split; [|constructor].
  - eapply Forall_impl; [|exact Hpre]. intros p Hp. apply Qgtb_true in Hp. lra.
  - lra.
  - eapply Forall_impl; [|exact Hpost]. intros p Hp. now apply Qgtb_false in Hp.
Qed.

Lemma displayedProducts_incl (expanded : bool) (all : list Product) :
  incl (ResultsDisplay.displayedProducts expanded all) all.
Proof.
  destruct expanded; simpl; intros p Hp; [exact Hp|].
  rewrite <- (firstn_skipn ResultsDisplay.initialCount all).
  apply in_or_app. now left.
Qed.

(** A marked card belongs to a record of the list that carries a number as
    its score, equal to [maxScore]; every card marked in the collapsed grid
    is marked in the expanded grid as well; and the expanded grid marks the
    best deal itself as soon as the best deal carries a number. *)
Theorem marked_cards_are_the_scored_maxima
  (all : list Product) (best : Product) (maxScore : Q) :
  ResultsDisplay.bestDeal all = Some (best, maxScore) ->
  (forall expanded p,
      In p (ResultsDisplay.highlightedCards expanded all) ->
      In p all /\ has_score p /\ shown_score p == maxScore) /\
  incl (ResultsDisplay.highlightedCards false all)
       (ResultsDisplay.highlightedCards true all) /\
  (has_score best -> In best (ResultsDisplay.highlightedCards true all)).
Proof.
  intros Hb. destruct (grid_best_is_greatest all best maxScore Hb) as (Hm & Hin & _).
  unfold ResultsDisplay.highlightedCards. rewrite Hb. split; [|split].
  - intros expanded p Hp. apply filter_In in Hp. destruct Hp as [Hd Hh].
    apply highlighted_spec in Hh. destruct Hh as (q & Hq & Hqm).
    split; [now apply (displayedProducts_incl expanded)|].
    unfold has_score, shown_score. rewrite Hq. simpl. split; [exact I | exact Hqm].
  - intros p Hp. apply filter_In in Hp. destruct Hp as [Hd Hh].
    apply filter_In. split; [|exact Hh].
    now apply (displayedProducts_incl false).
  - intros Hs. apply filter_In. split; [exact Hin|].
    apply highlighted_spec. unfold has_score in Hs. rewrite Hm. unfold shown_score.
    destruct (final_score best) as [q| |]; try contradiction.
    exists q. split; [reflexivity|]. simpl. reflexivity.
Qed.

Lemma marked_cards_are_the_scored_maxima_witness :
  (forall expanded p,
      In p (ResultsDisplay.highlightedCards expanded spec_example) ->
      In p spec_example /\ has_score p /\ shown_score p == 88 # 100) /\
  incl (ResultsDisplay.highlightedCards false spec_example)
       (ResultsDisplay.highlightedCards true spec_example) /\
  (has_score (item "second" 50 3 (JS.Num (88 # 100))) ->
   In (item "second" 50 3 (JS.Num (88 # 100)))
      (ResultsDisplay.highlightedCards true spec_example)).
Proof.
  apply (marked_cards_are_the_scored_maxima spec_example
           (item "second" 50 3 (JS.Num (88 # 100))) (88 # 100)).
  reflexivity.
Defined.

(** The best deal is searched in all products, the marks are put on the
    displayed cards only: when each of the first four products scores below
    [maxScore], the collapsed grid shows no marked card at all. *)
Theorem collapsed_grid_may_mark_nothing
  (all : list Product) (best : Product) (maxScore : Q) :
  ResultsDisplay.bestDeal all = Some (best, maxScore) ->
  Forall (fun p => shown_score p < maxScore) (firstn ResultsDisplay.initialCount all) ->
  ResultsDisplay.highlightedCards false all = [].
Proof.
  intros Hb Hlow. unfold ResultsDisplay.highlightedCards. rewrite Hb.
  unfold ResultsDisplay.displayedProducts.
  induction Hlow as [|p l Hp _ IH]; [reflexivity|].
  simpl. destruct (ResultsDisplay.highlighted maxScore p) eqn:H; [|exact IH].
  apply highlighted_spec in H. destruct H as (q & Hq & Hqm).
  unfold shown_score in Hp. rewrite Hq in Hp. simpl in Hp. lra.
Qed.

Lemma collapsed_grid_may_mark_nothing_witness :
  ResultsDisplay.highlightedCards false
    (tied_pair ++ tied_pair ++ [item "late" 10 5 (JS.Num (9 # 10))]) = [].
Proof.
  apply (collapsed_grid_may_mark_nothing
           (tied_pair ++ tied_pair ++ [item "late" 10 5 (JS.Num (9 # 10))])
           (item "late" 10 5 (JS.Num (9 # 10))) (9 # 10)).
  - reflexivity.
  - repeat constructor.
Defined.

(** ** The recommendation card against the grid *)

Lemma scans_agree_on_scored (rest : list Product) (p0 : Product) :
  has_score p0 -> Forall has_score rest ->
  fold_left (keep_first Product score_gt) rest p0 =
  fold_left (keep_first Product shown_gt) rest p0.
Proof.
  revert p0. induction rest as [|x rest IH]; intros p0 H0 Hr; [reflexivity|].
  inversion_clear Hr as [|? ? Hx Hrest]. simpl.
  unfold keep_first at 2 4. rewrite (score_gt_shown x p0 Hx H0).
  destruct (shown_gt x p0); now apply IH.
Qed.

(** When every record carries a number as its score, the record of the
    recommendation card is the best deal of the grid. *)
Theorem card_and_grid_agree_on_scored (all : list Product) :
  Forall has_score all ->
  AIRecommendation.bestDeal all = option_map fst (ResultsDisplay.bestDeal all).
Proof.
  intros Hs. destruct all as [|p0 rest]; [reflexivity|].
  inversion_clear Hs as [|? ? H0 Hr].
  rewrite AIRecommendation_bestDeal_cons, ResultsDisplay_bestDeal_cons. simpl.
  f_equal. now apply scans_agree_on_scored.
Qed.

Lemma card_and_grid_agree_on_scored_witness :
  AIRecommendation.bestDeal spec_example =
  option_map fst (ResultsDisplay.bestDeal spec_example).
Proof.
  apply (card_and_grid_agree_on_scored spec_example).
  repeat constructor.
Defined.

Lemma undefined_first_stays (rest : list Product) (p0 : Product) :
  final_score p0 = JS.Undefined ->
  fold_left (keep_first Product score_gt) rest p0 = p0.
Proof.
  intros H0. induction rest as [|x rest IH]; [reflexivity|].
  simpl. unfold keep_first at 2. unfold score_gt, JS.gt. rewrite H0. simpl.
  destruct (JS.to_number (final_score x)); exact IH.
Qed.

(** When the first record has no [final_score] at all, every comparison of
    the [reduce] is against [undefined] and fails: the card recommends the
    first record whatever the others score, while the grid, given a record
    of positive score, takes a record that carries a number. *)
Theorem card_keeps_unscored_first_record
  (p0 : Product) (rest : list Product) (p : Product) (q : Q) :
  final_score p0 = JS.Undefined ->
  In p rest -> final_score p = JS.Num q -> 0 < q ->
  AIRecommendation.bestDeal (p0 :: rest) = Some p0 /\
  exists best maxScore,
    ResultsDisplay.bestDeal (p0 :: rest) = Some (best, maxScore) /\
    has_score best /\ q <= maxScore.
Proof.
  intros H0 Hin Hq Hpos. split.
  - rewrite AIRecommendation_bestDeal_cons. f_equal. now apply undefined_first_stays.
  - destruct (ResultsDisplay.bestDeal (p0 :: rest)) as [(best & m)|] eqn:Hb;
      [|discriminate].
    destruct (grid_best_is_greatest _ _ _ Hb) as (Hm & _ & Hall).
    exists best, m. split; [reflexivity|].
    rewrite Forall_forall in Hall. specialize (Hall p (or_intror Hin)).
    unfold shown_score in Hall. rewrite Hq in Hall. simpl in Hall.
    split; [|exact Hall].
    unfold has_score. rewrite Hm in Hall. unfold shown_score in Hall.
    destruct (final_score best); simpl in *; [exact I | lra | lra].
Qed.

Lemma card_keeps_unscored_first_record_witness :
  AIRecommendation.bestDeal unscored_first = Some (item "unscored" 10 4 JS.Undefined) /\
  exists best maxScore,
    ResultsDisplay.bestDeal unscored_first = Some (best, maxScore) /\
    has_score best /\ 1 # 10 <= maxScore.
Proof.
  apply (card_keeps_unscored_first_record
           (item "unscored" 10 4 JS.Undefined)
           [item "scored" 20 4 (JS.Num (1 # 10)); item "null" 30 4 JS.Null]
           (item "scored" 20 4 (JS.Num (1 # 10))) (1 # 10)).
  - reflexivity.
  - simpl. auto.
  - reflexivity.
  - reflexivity.
Defined.

(** ** [AIRecommendation.tsx]: the lowest-price banner *)

Lemma fold_Qmin_spec (l : list Q) (m : Q) :
  fold_left Qmin l m <= m /\
  Forall (fun x => fold_left Qmin l m <= x) l /\
  (fold_left Qmin l m == m \/ Exists (fun x => x == fold_left Qmin l m) l).
Proof.
  revert m. induction l as [|x l IH]; intros m; simpl.
  - split; [lra|]. split; [constructor | left; reflexivity].
  - destruct (IH (Qmin m x)) as (H1 & H2 & H3).
    pose proof (Q.le_min_l m x) as Hl. pose proof (Q.le_min_r m x) as Hr.
    split; [lra|]. split; [constructor; [lra | assumption]|].
    destruct H3 as [H3|H3]; [|right; now apply Exists_cons_tl].
    destruct (Q.min_dec m x) as [D|D].
    + left. lra.
    + right. apply Exists_cons_hd. lra.
Qed.

Lemma lowestPrice_spec (p0 : Product) (rest : list Product) :
  Forall (fun p => AIRecommendation.lowestPrice p0 rest <= price p) (p0 :: rest) /\
  Exists (fun p => price p == AIRecommendation.lowestPrice p0 rest) (p0 :: rest).
Proof.
  unfold AIRecommendation.lowestPrice.
  destruct (fold_Qmin_spec (map price rest) (price p0)) as (H1 & H2 & H3).
  split.
  - constructor; [exact H1|]. rewrite Forall_map in H2. exact H2.
  - destruct H3 as [H3|H3].
    + apply Exists_cons_hd. lra.
    + apply Exists_cons_tl. rewrite Exists_map in H3. exact H3.
Qed.

(** The difference between the price of the recommended record and the
    lowest price is never negative, and the banner that promises the lowest
    price is shown exactly when no product is cheaper than the recommended
    one. *)
Theorem lowest_price_banner_is_honest (products : list Product) (best : Product) :
  AIRecommendation.bestDeal products = Some best ->
  exists d,
    AIRecommendation.priceDifference products = Some d /\
    0 <= d /\
    (AIRecommendation.lowestPriceBanner products = true <->
     Forall (fun p => price best <= price p) products).
Proof.
  intros Hb. destruct products as [|p0 rest]; [discriminate|].
  assert (Hin : In best (p0 :: rest)).
  { rewrite AIRecommendation_bestDeal_cons in Hb. injection Hb as <-.
    apply keep_first_in. }
  destruct (lowestPrice_spec p0 rest) as (Hall & Hex).
  unfold AIRecommendation.lowestPriceBanner, AIRecommendation.priceDifference.
  rewrite Hb. eexists. split; [reflexivity|].
  rewrite Forall_forall in Hall. pose proof (Hall best Hin) as Hle.
  split; [lra|]. rewrite Qeq_bool_iff. split.
  - intros Hz. apply Forall_forall. intros p Hp. specialize (Hall p Hp). lra.
  - intros Hbest. apply Exists_exists in Hex. destruct Hex as (c & Hc & Hcl).
    rewrite Forall_forall in Hbest. specialize (Hbest c Hc). lra.
Qed.

Lemma lowest_price_banner_is_honest_witness :
  exists d,
    AIRecommendation.priceDifference spec_example = Some d /\
    0 <= d /\
    (AIRecommendation.lowestPriceBanner spec_example = true <->
     Forall (fun p => price (item "second" 50 3 (JS.Num (88 # 100))) <= price p)
            spec_example).
Proof.
  apply (lowest_price_banner_is_honest spec_example
           (item "second" 50 3 (JS.Num (88 # 100)))).
  reflexivity.
Defined.

(** ** [Index.tsx]: from the response to the [products] object *)

Lemma allProducts_cons (k : string) (v : option (list (option Product)))
  (r : ResultsDisplay.platforms) :
  ResultsDisplay.allProducts ((k, v) :: r) =
  ResultsDisplay.filter_Boolean (match v with Some arr => arr | None => [None] end)
  ++ ResultsDisplay.allProducts r.
Proof.
  unfold ResultsDisplay.allProducts, ResultsDisplay.flat. simpl.
  apply filter_Boolean_app.
Qed.

Lemma filter_Boolean_length (arr : list (option Product)) :
  (List.length (ResultsDisplay.filter_Boolean arr) <= List.length arr)%nat.
Proof.
  induction arr as [|[x|] arr IH]; simpl; lia.
Qed.

Lemma filter_Boolean_length_full (arr : list (option Product)) :
  Forall (fun e => e <> None) arr ->
  List.length (ResultsDisplay.filter_Boolean arr) = List.length arr.
Proof.
  induction 1 as [|[x|] arr Hx _ IH]; simpl; [reflexivity | now f_equal | congruence].
Qed.

Lemma assign_keys (k k0 : string) (v : option (list (option Product)))
  (obj : ResultsDisplay.platforms) :
  In k0 (map fst (Index.assign k v obj)) <-> k0 = k \/ In k0 (map fst obj).
Proof.
  induction obj as [|(k' & v') r IH]; simpl.
  - intuition.
  - destruct (String.eqb k k') eqn:E; simpl.
    + apply String.eqb_eq in E. subst k'. intuition.
    + rewrite IH. intuition.
Qed.

Lemma assign_NoDup (k : string) (v : option (list (option Product)))
  (obj : ResultsDisplay.platforms) :
  NoDup (map fst obj) -> NoDup (map fst (Index.assign k v obj)).
Proof.
  induction obj as [|(k' & v') r IH]; simpl; intros Hnd.
  - constructor; [intros [] | constructor].
  - inversion_clear Hnd as [|? ? Hk' Hr].
    destruct (String.eqb k k') eqn:E; simpl.
    + apply String.eqb_eq in E. subst k'. now constructor.
    + apply String.eqb_neq in E. constructor; [|now apply IH].
      rewrite assign_keys. intros [H|H]; [congruence | contradiction].
Qed.

Lemma lookup_assign_same (k : string) (v : option (list (option Product)))
  (obj : ResultsDisplay.platforms) :
  ResultsDisplay.lookup k (Index.assign k v obj) = Some v.
Proof.
  induction obj as [|(k' & v') r IH]; simpl.
  - now rewrite String.eqb_refl.
  - destruct (String.eqb k k') eqn:E; simpl.
    + now rewrite String.eqb_refl.
    + now rewrite E.
Qed.

Lemma lookup_assign_other (k k0 : string) (v : option (list (option Product)))
  (obj : ResultsDisplay.platforms) :
  k0 <> k ->
  ResultsDisplay.lookup k0 (Index.assign k v obj) = ResultsDisplay.lookup k0 obj.
Proof.
  intros Hne. induction obj as [|(k' & v') r IH]; simpl.
  - apply String.eqb_neq in Hne. now rewrite Hne.
  - destruct (String.eqb k k') eqn:E; simpl.
    + apply String.eqb_eq in E. subst k'.
      apply String.eqb_neq in Hne. now rewrite Hne.
    + destruct (String.eqb k0 k'); [reflexivity | exact IH].
Qed.

Lemma assign_count_le (k : string) (arr : list (option Product))
  (obj : ResultsDisplay.platforms) :
  (List.length (ResultsDisplay.allProducts (Index.assign k (Some arr) obj)) <=
   List.length (ResultsDisplay.allProducts obj) + List.length arr)%nat.
Proof.
  pose proof (filter_Boolean_length arr) as Harr.
  induction obj as [|(k' & v') r IH]; simpl.
  - rewrite allProducts_cons, length_app. simpl. lia.
  - destruct (String.eqb k k'); rewrite !allProducts_cons, !length_app; lia.
Qed.

Lemma assign_count_new (k : string) (arr : list (option Product))
  (obj : ResultsDisplay.platforms) :
  ~ In k (map fst obj) ->
  List.length (ResultsDisplay.allProducts (Index.assign k (Some arr) obj)) =
  (List.length (ResultsDisplay.allProducts obj) +
   List.length (ResultsDisplay.filter_Boolean arr))%nat.
Proof.
  induction obj as [|(k' & v') r IH]; simpl; intros Hk.
  - rewrite allProducts_cons, length_app. simpl. lia.
  - destruct (String.eqb k k') eqn:E.
    + apply String.eqb_eq in E. subst k'. exfalso. apply Hk. now left.
    + rewrite !allProducts_cons, !length_app, IH by tauto. lia.
Qed.

Lemma productCount_productsOrEmpty (pl : Index.PlatformResult) :
  List.length (Index.productsOrEmpty pl) = Index.productCount pl.
Proof.
  unfold Index.productsOrEmpty, Index.productCount. now destruct (Index.products pl).
Qed.

Section HandleSearchFacts.

Variable toLowerCase : string -> string.

Local Abbreviation key := (fun pl => toLowerCase (Index.platform pl)).
Local Abbreviation store := (Index.store toLowerCase).
Local Abbreviation count := (fun acc pl => (acc + Index.productCount pl)%nat).

Lemma store_fold_count_le (pls : list Index.PlatformResult)
  (obj : ResultsDisplay.platforms) (acc : nat) :
  (List.length (ResultsDisplay.allProducts obj) <= acc)%nat ->
  (List.length (ResultsDisplay.allProducts (fold_left store pls obj)) <=
   fold_left count pls acc)%nat.
Proof.
  revert obj acc. induction pls as [|pl pls IH]; intros obj acc H; simpl; [exact H|].
  apply IH. unfold Index.store.
  pose proof (assign_count_le (key pl) (Index.productsOrEmpty pl) obj) as Ha.
  rewrite productCount_productsOrEmpty in Ha. lia.
Qed.

Lemma store_fold_count_eq (pls : list Index.PlatformResult)
  (obj : ResultsDisplay.platforms) (acc : nat) :
  NoDup (map key pls) ->
  (forall pl, In pl pls -> ~ In (key pl) (map fst obj)) ->
  Forall (fun pl => Forall (fun e => e <> None) (Index.productsOrEmpty pl)) pls ->
  List.length (ResultsDisplay.allProducts obj) = acc ->
  List.length (ResultsDisplay.allProducts (fold_left store pls obj)) =
  fold_left count pls acc.
Proof.
  revert obj acc. induction pls as [|pl pls IH]; intros obj acc Hnd Hfresh Hfull H;
    simpl; [exact H|].
  inversion_clear Hnd as [|? ? Hpl Hnd']. inversion_clear Hfull as [|? ? Hf Hfull'].
  apply IH; try assumption.
  - intros pl' Hin. unfold Index.store. rewrite assign_keys. intros [E|E].
    + apply Hpl. rewrite <- E. apply in_map_iff. now exists pl'.
    + apply (Hfresh pl'); [now right | exact E].
  - unfold Index.store. rewrite assign_count_new by (apply Hfresh; now left).
    rewrite (filter_Boolean_length_full _ Hf), productCount_productsOrEmpty. lia.
Qed.

Lemma store_fold_lookup_other (post : list Index.PlatformResult)
  (obj : ResultsDisplay.platforms) (k : string) :
  Forall (fun q => key q <> k) post ->
  ResultsDisplay.lookup k (fold_left store post obj) = ResultsDisplay.lookup k obj.
Proof.
  revert obj. induction post as [|q post IH]; intros obj H; simpl; [reflexivity|].
  inversion_clear H as [|? ? Hq Hpost]. rewrite IH by assumption.
  unfold Index.store. apply lookup_assign_other. congruence.
Qed.

Lemma store_fold_shape (pls : list Index.PlatformResult) (obj : ResultsDisplay.platforms) :
  NoDup (map fst obj) ->
  Forall (fun kv => exists arr, snd kv = Some arr) obj ->
  NoDup (map fst (fold_left store pls obj)) /\
  Forall (fun kv => exists arr, snd kv = Some arr) (fold_left store pls obj) /\
  (forall k, In k (map fst (fold_left store pls obj)) <->
             In k (map fst obj) \/ In k (map key pls)).
Proof.
  revert obj. induction pls as [|pl pls IH]; intros obj Hnd Harr; simpl.
  - split; [exact Hnd|]. split; [exact Harr|]. intros k. tauto.
  - destruct (IH (store obj pl)) as (H1 & H2 & H3).
    + now apply assign_NoDup.
    + unfold Index.store. clear - Harr.
      induction obj as [|(k' & v') r IHr]; simpl.
      * constructor; [now eexists | constructor].
      * inversion_clear Harr as [|? ? Hv Hr].
        destruct (String.eqb _ k'); constructor; auto. now eexists.
    + split; [exact H1|]. split; [exact H2|]. intros k. rewrite H3.
      unfold Index.store. rewrite assign_keys. intuition.
Qed.

(** The number announced after a search (and saved with it) is never below
    the number of products the results page counts. *)
Theorem announced_count_bounds_shown_count (platforms : option (list Index.PlatformResult)) :
  (ResultsDisplay.totalProducts
     (ResultsDisplay.allProducts (Index.platformProducts toLowerCase platforms))
   <= Index.totalCount platforms)%nat.
Proof.
  unfold ResultsDisplay.totalProducts, Index.platformProducts, Index.totalCount.
  destruct platforms as [pls|]; [|simpl; lia].
  apply store_fold_count_le. simpl. lia.
Qed.

(** The two numbers are equal when the platform names stay distinct in lower
    case and no product array holds a [null]. *)
Theorem announced_count_is_shown_count (pls : list Index.PlatformResult) :
  NoDup (map (fun pl => toLowerCase (Index.platform pl)) pls) ->
  Forall (fun pl => Forall (fun e => e <> None) (Index.productsOrEmpty pl)) pls ->
  ResultsDisplay.totalProducts
    (ResultsDisplay.allProducts (Index.platformProducts toLowerCase (Some pls)))
  = Index.totalCount (Some pls).
Proof.
  intros Hnd Hfull.
  unfold ResultsDisplay.totalProducts, Index.platformProducts, Index.totalCount.
  apply store_fold_count_eq; auto.
Qed.

(** The object handed to the results page has one key per lower-cased
    platform name, each key once, and every value is an array. *)
Theorem platformProducts_is_an_object_of_arrays
  (platforms : option (list Index.PlatformResult)) :
  NoDup (map fst (Index.platformProducts toLowerCase platforms)) /\
  Forall (fun kv => exists arr, snd kv = Some arr)
         (Index.platformProducts toLowerCase platforms) /\
  (forall k, In k (map fst (Index.platformProducts toLowerCase platforms)) <->
             exists pls pl, platforms = Some pls /\ In pl pls /\
                            toLowerCase (Index.platform pl) = k).
Proof.
  destruct platforms as [pls|]; simpl.
  - destruct (store_fold_shape pls []) as (H1 & H2 & H3); [constructor | constructor|].
    split; [exact H1|]. split; [exact H2|]. intros k. rewrite H3. split.
    + intros [[]|H]. apply in_map_iff in H. destruct H as (pl & E & Hin).
      now exists pls, pl.
    + intros (pls' & pl & [= <-] & Hin & E). right. apply in_map_iff. now exists pl.
  - split; [constructor|]. split; [constructor|]. intros k. split; [intros [] |].
    intros (pls & pl & E & _). discriminate.
Qed.

(** When several platforms of a response share a lower-cased name, the key
    holds the products of the last of them; those of the earlier ones are
    gone. *)
Theorem platformProducts_last_wins
  (pre post : list Index.PlatformResult) (pl : Index.PlatformResult) :
  Forall (fun q => toLowerCase (Index.platform q) <> toLowerCase (Index.platform pl)) post ->
  ResultsDisplay.lookup (toLowerCase (Index.platform pl))
    (Index.platformProducts toLowerCase (Some (pre ++ pl :: post)))
  = Some (Some (Index.productsOrEmpty pl)).
Proof.
  intros Hpost. unfold Index.platformProducts. rewrite fold_left_app. simpl.
  rewrite store_fold_lookup_other by exact Hpost.
  unfold Index.store. apply lookup_assign_same.
Qed.

End HandleSearchFacts.

Lemma announced_count_is_shown_count_witness :
  ResultsDisplay.totalProducts
    (ResultsDisplay.allProducts (Index.platformProducts toLowerCaseAscii (Some two_shops)))
  = Index.totalCount (Some two_shops).
Proof.
  apply (announced_count_is_shown_count toLowerCaseAscii two_shops).
  - repeat constructor; simpl; intuition discriminate.
  - repeat constructor; discriminate.
Defined.

Lemma platformProducts_last_wins_witness :
  ResultsDisplay.lookup "amazon"
    (Index.platformProducts toLowerCaseAscii (Some twice_amazon))
  = Some (Some [Some (item "second" 50 3 (JS.Num (88 # 100)))]).
Proof.
  apply (platformProducts_last_wins toLowerCaseAscii
           [Index.mkPlatformResult "Amazon"
              (Some [Some (item "first" 100 4 (JS.Num (24 # 100)))])]
           [Index.mkPlatformResult "Flipkart" None]
           (Index.mkPlatformResult "AMAZON"
              (Some [Some (item "second" 50 3 (JS.Num (88 # 100)))]))).
  repeat constructor. vm_compute. discriminate.
Defined.

(** ** The password helpers *)

Module PasswordFacts.
Import Password.

Lemma leb_12_8 (n : nat) : Nat.leb 12 n = true -> Nat.leb 8 n = true.
Proof. rewrite !Nat.leb_le. lia. Qed.

Lemma ltb_8_leb (n : nat) : Nat.ltb n 8 = negb (Nat.leb 8 n).
Proof.
  destruct (Nat.leb 8 n) eqn:E; simpl.
  - apply Nat.ltb_ge. now apply Nat.leb_le.
  - apply Nat.ltb_lt. apply Nat.leb_gt in E. exact E.
Qed.

(** The two verdicts in terms of the six tests. *)
Lemma verdicts (c : N) (r : list N) :
  let password := c :: r in
  let long8 := Nat.leb 8 (List.length password) in
  let long12 := Nat.leb 12 (List.length password) in
  let lower := existsb isLower password in
  let upper := existsb isUpper password in
  let digit := existsb isDigit password in
  let special := existsb isSpecial password in
  isValid (validatePassword password) = (long8 && lower && upper && digit && special)%bool /\
  score (checkPasswordStrength password) =
  Nat.min ((2 * (b2n long8 + b2n long12 + b2n lower + b2n upper + b2n digit + b2n special)) / 3) 4.
Proof.
  intros password long8 long12 lower upper digit special. split; [|reflexivity].
  unfold validatePassword. rewrite ltb_8_leb.
  fold long8 lower upper digit special.
  destruct long8, lower, upper, digit, special; reflexivity.
Qed.

Lemma alphabets_in_class :
  Forall (fun c => isUpper c = true) uppercase /\
  Forall (fun c => isLower c = true) lowercase /\
  Forall (fun c => isDigit c = true) numbers /\
  Forall (fun c => isSpecial c = true) symbols.
Proof.
  repeat split; vm_compute; repeat constructor.
Qed.

End PasswordFacts.

(** The strength is a number from 0 to 4 and always comes with a label and a
    colour: the two arrays are never read past their end. *)
Theorem strength_always_labelled (password : list N) :
  (Password.score (Password.checkPasswordStrength password) <= 4)%nat /\
  exists l c,
    Password.label (Password.checkPasswordStrength password) = Some l /\
    Password.color (Password.checkPasswordStrength password) = Some c.
Proof.
  destruct password as [|c r].
  - simpl. split; [lia|]. now do 2 eexists.
  - unfold Password.checkPasswordStrength.
    set (n := Password.normalizedScore (c :: r)).
    assert (Hn : (n <= 4)%nat) by apply Nat.le_min_r.
    simpl. split; [exact Hn|].
    destruct n as [|[|[|[|[|n]]]]]; simpl; try (now do 2 eexists). lia.
Qed.

(** A password is accepted exactly when it has at least 8 code units and
    holds a lowercase letter, an uppercase letter, a digit and one more
    character of another kind; and it is accepted exactly when no error
    message is returned. *)
Theorem validatePassword_accepts_exactly (password : list N) :
  (Password.isValid (Password.validatePassword password) = true <->
   (8 <= List.length password)%nat /\
   existsb Password.isLower password = true /\
   existsb Password.isUpper password = true /\
   existsb Password.isDigit password = true /\
   existsb Password.isSpecial password = true) /\
  (Password.isValid (Password.validatePassword password) = true <->
   Password.errors (Password.validatePassword password) = []).
Proof.
  split.
  - destruct password as [|c r].
    + simpl. split; [discriminate | intros (H & _); simpl in H; lia].
    + destruct (PasswordFacts.verdicts c r) as (Hv & _). rewrite Hv.
      rewrite !andb_true_iff, Nat.leb_le. tauto.
  - unfold Password.validatePassword, Password.isValid, Password.errors.
    rewrite Nat.eqb_eq. split.
    + intros H. now apply length_zero_iff_nil.
    + intros ->. reflexivity.
Qed.

(** An accepted password is rated at least 3 ("Good"), and the rating 4
    ("Strong") is given exactly to the accepted passwords of at least 12
    code units. *)
Theorem accepted_passwords_rate_well (password : list N) :
  (Password.isValid (Password.validatePassword password) = true ->
   (3 <= Password.score (Password.checkPasswordStrength password))%nat) /\
  (Password.score (Password.checkPasswordStrength password) = 4%nat <->
   Password.isValid (Password.validatePassword password) = true /\
   (12 <= List.length password)%nat).
Proof.
  destruct password as [|c r].
  - simpl. split; [discriminate|]. split; [discriminate | intros (H & _); discriminate].
  - destruct (PasswordFacts.verdicts c r) as (Hv & Hs). rewrite Hv, Hs.
    rewrite <- (Nat.leb_le 12).
    pose proof (PasswordFacts.leb_12_8 (List.length (c :: r))) as H128.
    destruct (Nat.leb 12 (List.length (c :: r))).
    + rewrite (H128 eq_refl).
      destruct (existsb Password.isLower (c :: r)), (existsb Password.isUpper (c :: r)),
        (existsb Password.isDigit (c :: r)), (existsb Password.isSpecial (c :: r));
        simpl; (split; [intros; lia || discriminate | split; [intros; auto; discriminate | intros (? & ?); auto; discriminate]]).
    + destruct (Nat.leb 8 (List.length (c :: r))),
        (existsb Password.isLower (c :: r)), (existsb Password.isUpper (c :: r)),
        (existsb Password.isDigit (c :: r)), (existsb Password.isSpecial (c :: r));
        simpl; (split; [intros; lia || discriminate | split; [intros; discriminate | intros (? & ?); discriminate]]).
Qed.

Lemma accepted_passwords_rate_well_witness :
  (3 <= Password.score (Password.checkPasswordStrength (Password.codes "Abcdef1!")))%nat.
Proof.
  apply (proj1 (accepted_passwords_rate_well (Password.codes "Abcdef1!"))).
  reflexivity.
Defined.

Lemma existsb_Permutation {A : Type} (f : A -> bool) (l l' : list A) :
  Permutation l l' -> existsb f l = true -> existsb f l' = true.
Proof.
  intros HP H. apply existsb_exists in H. destruct H as (x & Hin & Hx).
  apply existsb_exists. exists x. split; [|exact Hx].
  now apply (Permutation_in x HP).
Qed.

(** Whatever the random draws and the random order, a generated password
    has 14 characters, all from the four alphabets, is accepted by
    [validatePassword] and is rated 4 ("Strong"). *)
Theorem generated_password_is_accepted_and_strong (password : list N) :
  Password.generateSecurePassword password ->
  List.length password = 14%nat /\
  Forall (fun c => In c Password.allChars) password /\
  Password.isValid (Password.validatePassword password) = true /\
  Password.score (Password.checkPasswordStrength password) = 4%nat.
Proof.
  intros [u l n s fill pw Hu Hl Hn Hs Hlen Hfill HP].
  assert (Hlen14 : List.length pw = 14%nat).
  { rewrite <- (Permutation_length HP). simpl. now rewrite Hlen. }
  assert (Hup : existsb Password.isUpper pw = true).
  { apply (existsb_Permutation _ _ _ HP). apply existsb_exists. exists u.
    split; [simpl; auto|].
    exact (proj1 (Forall_forall _ _) (proj1 PasswordFacts.alphabets_in_class) u Hu). }
  assert (Hlo : existsb Password.isLower pw = true).
  { apply (existsb_Permutation _ _ _ HP). apply existsb_exists. exists l.
    split; [simpl; auto|].
    exact (proj1 (Forall_forall _ _) (proj1 (proj2 PasswordFacts.alphabets_in_class)) l Hl). }
  assert (Hdi : existsb Password.isDigit pw = true).
  { apply (existsb_Permutation _ _ _ HP). apply existsb_exists. exists n.
    split; [simpl; auto|].
    exact (proj1 (Forall_forall _ _) (proj1 (proj2 (proj2 PasswordFacts.alphabets_in_class))) n Hn). }
  assert (Hsp : existsb Password.isSpecial pw = true).
  { apply (existsb_Permutation _ _ _ HP). apply existsb_exists. exists s.
    split; [simpl; auto 6|].
    exact (proj1 (Forall_forall _ _) (proj2 (proj2 (proj2 PasswordFacts.alphabets_in_class))) s Hs). }
  split; [exact Hlen14|]. split.
  - apply (Permutation_Forall HP).
    unfold Password.allChars.
    constructor; [apply in_or_app; now left|].
    constructor; [apply in_or_app; right; apply in_or_app; now left|].
    constructor; [do 2 (apply in_or_app; right); apply in_or_app; now left|].
    constructor; [do 3 (apply in_or_app; right); exact Hs|].
    exact Hfill.
  - destruct pw as [|c r]; [discriminate|].
    destruct (PasswordFacts.verdicts c r) as (Hv & Hsc).
    rewrite Hv, Hsc, Hlen14, Hup, Hlo, Hdi, Hsp. split; reflexivity.
Qed.

Lemma generated_password_is_accepted_and_strong_witness :
  List.length (Password.codes "Ab2!AAAAAAAAAA") = 14%nat /\
  Forall (fun c => In c Password.allChars) (Password.codes "Ab2!AAAAAAAAAA") /\
  Password.isValid (Password.validatePassword (Password.codes "Ab2!AAAAAAAAAA")) = true /\
  Password.score (Password.checkPasswordStrength (Password.codes "Ab2!AAAAAAAAAA")) = 4%nat.
Proof.
  apply (generated_password_is_accepted_and_strong (Password.codes "Ab2!AAAAAAAAAA")).
  apply (Password.generated 65 98 50 33 (Password.codes "AAAAAAAAAA")).
  - vm_compute. auto.
  - vm_compute. auto.
  - vm_compute. auto.
  - vm_compute. auto.
  - reflexivity.
  - repeat constructor; vm_compute; auto.
  - apply Permutation_refl.
Defined.

(** ** The selection and the ratings *)

Lemma rerate_score (f : Product -> Q) (p : Product) :
  final_score (rerate f p) = final_score p.
Proof. reflexivity. Qed.

Lemma scan_commutes_with_rerate (f : Product -> Q) (gtb : Product -> Product -> bool)
  (rest : list Product) (p0 : Product) :
  (forall x y, gtb (rerate f x) (rerate f y) = gtb x y) ->
  fold_left (keep_first Product gtb) (map (rerate f) rest) (rerate f p0) =
  rerate f (fold_left (keep_first Product gtb) rest p0).
Proof.
  intros Hg. revert p0. induction rest as [|x rest IH]; intros p0; [reflexivity|].
  simpl. rewrite <- IH. f_equal. unfold keep_first. rewrite Hg.
  now destruct (gtb x p0).
Qed.

(** C1, as the code has it: on every non-empty list the grid returns a
    record of the list whose shown score is the greatest of the whole list,
    and so does the recommendation card on lists whose records all carry a
    score; the ratings are never read: with the ratings replaced by any
    others both components return the same record (with its new rating), so
    a record rated 3.5 or below is returned whenever its score is the
    highest. *)
Theorem C1_bestDeal_is_maximum_whatever_the_ratings :
  (forall products : list Product,
      products <> [] ->
      exists best maxScore,
        ResultsDisplay.bestDeal products = Some (best, maxScore) /\
        In best products /\ maxScore = shown_score best /\
        Forall (fun p => shown_score p <= shown_score best) products) /\
  (forall products : list Product,
      products <> [] -> Forall has_score products ->
      exists best,
        AIRecommendation.bestDeal products = Some best /\
        In best products /\
        Forall (fun p => score_gt p best = false) products) /\
  (forall (f : Product -> Q) (products : list Product),
      AIRecommendation.bestDeal (map (rerate f) products) =
      option_map (rerate f) (AIRecommendation.bestDeal products) /\
      ResultsDisplay.bestDeal (map (rerate f) products) =
      option_map (fun bm => (rerate f (fst bm), snd bm))
                 (ResultsDisplay.bestDeal products)).
Proof.
  split; [|split].
  - intros products Hne. destruct products as [|p0 rest]; [congruence|].
    destruct (ResultsDisplay.bestDeal (p0 :: rest)) as [(best & m)|] eqn:Hb;
      [|discriminate].
    destruct (grid_best_is_greatest _ _ _ Hb) as (Hm & Hin & Hall).
    exists best, m. split; [reflexivity|]. split; [exact Hin|]. split; [exact Hm|].
    now rewrite <- Hm.
  - intros products Hne Hs. destruct products as [|p0 rest]; [congruence|].
    destruct (score_scan_split p0 rest Hs) as (pre & post & E & Hpre & Hpost).
    set (r := fold_left (keep_first Product score_gt) rest p0) in *.
    exists r. split; [apply AIRecommendation_bestDeal_cons|].
    split; [apply keep_first_in|].
    assert (Hgood : Forall has_score (pre ++ r :: post)) by now rewrite <- E.
    rewrite E. apply Forall_app in Hgood. destruct Hgood as [Hg1 Hg2].
    inversion_clear Hg2 as [|? ? Hgr _].
    apply Forall_app. split.
    + rewrite Forall_forall in *. intros p Hp.
      specialize (Hpre p Hp). specialize (Hg1 p Hp).
      rewrite score_gt_shown in * by assumption.
      unfold shown_gt in *. rewrite Qgtb_true in Hpre. apply Qgtb_false. lra.
    + constructor; [apply score_gt_irrefl | assumption].
  - intros f products. destruct products as [|p0 rest]; [split; reflexivity|].
    simpl map. rewrite !AIRecommendation_bestDeal_cons, !ResultsDisplay_bestDeal_cons.
    simpl option_map. split.
    + f_equal. now apply scan_commutes_with_rerate.
    + rewrite (scan_commutes_with_rerate f shown_gt) by reflexivity. reflexivity.
Qed.

Lemma C1_bestDeal_is_maximum_whatever_the_ratings_witness :
  (exists best maxScore,
      ResultsDisplay.bestDeal spec_example = Some (best, maxScore) /\
      In best spec_example /\ maxScore = shown_score best /\
      Forall (fun p => shown_score p <= shown_score best) spec_example) /\
  (exists best,
      AIRecommendation.bestDeal spec_example = Some best /\
      In best spec_example /\
      Forall (fun p => score_gt p best = false) spec_example).
Proof.
  split.
  - apply (proj1 C1_bestDeal_is_maximum_whatever_the_ratings spec_example).
    discriminate.
  - apply (proj1 (proj2 C1_bestDeal_is_maximum_whatever_the_ratings) spec_example).
    + discriminate.
    + repeat constructor.
Defined.
